(** * cutout.py: on-the-fly cutouts for radio/optical cross-matching

    A shallow embedding of the numeric core of [cutout.py]:
    - [get_background_variance]: the iterative sigma-clipped variance;
    - [arr_slice] and the window slicer built in [cutouts];
    - lines 208 to 210 of [cutouts2], which compute the contour levels;
    - the integer pixel centre [int(x)];
    - the control flow of [cutouts2] up to its first unbound global name.

    numpy's float64 is IEEE 754 binary64; it is modelled by the Standard
    Library's executable specification [SpecFloat] at precision 53 and
    maximal exponent 1024, so the definitions below can be evaluated. *)

From Stdlib Require Import ZArith QArith Qabs Qround Qpower Lia Bool String.
From Stdlib Require Import Floats.SpecFloat.
From stdpp Require Import base list strings.

Local Open Scope Z_scope.

(** ** Binary64 numbers *)

Module F64.

Definition prec : Z := 53.
Definition emax : Z := 1024.

Definition float : Type := spec_float.

Definition nan : float := S754_nan.
Definition zero : float := S754_zero false.
Definition pinf : float := S754_infinity false.

Definition add : float -> float -> float := SFadd prec emax.
Definition sub : float -> float -> float := SFsub prec emax.
Definition mul : float -> float -> float := SFmul prec emax.
Definition div : float -> float -> float := SFdiv prec emax.
Definition sqrt : float -> float := SFsqrt prec emax.
Definition abs : float -> float := SFabs.
Definition opp : float -> float := SFopp.

(** [x < y]; false as soon as one side is NaN. *)
Definition ltb : float -> float -> bool := SFltb.
(** [x > y] is [y < x], with the same treatment of NaN. *)
Definition gtb (x y : float) : bool := SFltb y x.

(** Conversion of an integer, rounded to nearest even. *)
Definition of_Z (z : Z) : float := binary_normalize prec emax z 0 false.
(** The dyadic number [m * 2^e], rounded to nearest even. *)
Definition of_dyadic (m e : Z) : float := binary_normalize prec emax m e false.

Definition one : float := of_Z 1.

Definition is_nan (x : float) : bool :=
  match x with S754_nan => true | _ => false end.

Definition is_zero (x : float) : bool :=
  match x with S754_zero _ => true | _ => false end.

Definition is_inf (x : float) : bool :=
  match x with S754_infinity _ => true | _ => false end.

End F64.

Abbreviation float := F64.float.

(** ** The numpy reductions used by the estimator

    A one-dimensional array is a list.  The reductions follow numpy's
    [nanfunctions]: NaN entries are replaced by zero before summing and
    the sum is divided by the number of entries that are not NaN.
    Summation is modelled left to right, which is numpy's order for
    fewer than eight elements; from eight on numpy adds in pairs, and the
    last bit of a sum can differ.  No statement below depends on the
    order of summation, and the sums of the examples are exact. *)

Module np.

Definition sum (a : list float) : float := fold_left F64.add a F64.zero.

Definition replace_nan (a : list float) : list float :=
  map (fun x => if F64.is_nan x then F64.zero else x) a.

Definition count_valid (a : list float) : nat :=
  length (List.filter (fun x => negb (F64.is_nan x)) a).

Definition nanmean (a : list float) : float :=
  F64.div (sum (replace_nan a)) (F64.of_Z (Z.of_nat (count_valid a))).

Definition nanvar (a : list float) : float :=
  let avg := nanmean a in
  let dev := map (fun x => if F64.is_nan x then F64.zero else F64.sub x avg) a in
  let sqr := map (fun d => F64.mul d d) dev in
  match count_valid a with
  | O => F64.nan
  | S _ => F64.div (sum sqr) (F64.of_Z (Z.of_nat (count_valid a)))
  end.

Definition nanstd (a : list float) : float := F64.sqrt (nanvar a).

(** [a[mask]] where [mask] is computed elementwise by [keep]. *)
Definition mask_select (keep : float -> bool) (a : list float) : list float :=
  List.filter keep a.

End np.

(** ** get_background_variance *)

(** The variables the [while] loop reads and writes. *)
Record clip_state : Type := ClipState {
  diff : float;
  mean : float;
  data_clip : list float
}.

(** The test of [data_clip[np.abs(data_clip) < mean + sigma_clip*np.nanstd(data_clip)]]. *)
Definition clip_keep (sigma_clip mean : float) (data_clip : list float) (x : float) : bool :=
  F64.ltb (F64.abs x) (F64.add mean (F64.mul sigma_clip (np.nanstd data_clip))).

(** [np.abs(mean-newmean)/(mean+newmean)] *)
Definition relative_change (mean newmean : float) : float :=
  F64.div (F64.abs (F64.sub mean newmean)) (F64.add mean newmean).

(** One execution of the loop body. *)
Definition clip_step (sigma_clip : float) (st : clip_state) : clip_state :=
  let data_clip' := np.mask_select (clip_keep sigma_clip (mean st) (data_clip st)) (data_clip st) in
  let newmean := np.nanmean data_clip' in
  {| diff := relative_change (mean st) newmean;
     mean := newmean;
     data_clip := data_clip' |}.

(** The loop guard [diff > tolerance]. *)
Definition clip_continue (tolerance : float) (st : clip_state) : bool :=
  F64.gtb (diff st) tolerance.

(** [while diff > tolerance: ...]; [None] when [fuel] iterations were not
    enough to leave the loop. *)
Fixpoint clip_loop (fuel : nat) (sigma_clip tolerance : float) (st : clip_state)
  : option clip_state :=
  if clip_continue tolerance st then
    match fuel with
    | O => None
    | S fuel' => clip_loop fuel' sigma_clip tolerance (clip_step sigma_clip st)
    end
  else Some st.

Definition clip_init (data : list float) : clip_state :=
  {| diff := F64.one; mean := np.nanmean data; data_clip := data |}.

Definition get_background_variance (fuel : nat) (data : list float)
    (sigma_clip tolerance : float) : option float :=
  match clip_loop fuel sigma_clip tolerance (clip_init data) with
  | Some st => Some (np.nanvar (data_clip st))
  | None => None
  end.

(** The default arguments [sigma_clip=5.0] and [tolerance=0.01]. *)
Definition default_sigma_clip : float := F64.of_Z 5.
Definition default_tolerance : float := F64.div F64.one (F64.of_Z 100).

(** Integer-valued samples, for the examples. *)
Definition fl (z : Z) : float := F64.of_Z z.

(** The state after [n] executions of the loop body. *)
Definition clip_iter (sigma_clip : float) (data : list float) (n : nat) : clip_state :=
  Nat.iter n (clip_step sigma_clip) (clip_init data).

(** *** The estimator as the specification words it

    The working subset starts as all samples; an iteration removes the
    samples whose absolute value exceeds [mean + sigmaClip * stddev(subset)],
    recomputes the mean and the relative change, and the iteration is
    repeated until the relative change is at most the tolerance. *)

Definition spec_exceeds (sigma_clip mean : float) (subset : list float) (x : float) : bool :=
  F64.gtb (F64.abs x) (F64.add mean (F64.mul sigma_clip (np.nanstd subset))).

Definition spec_step (sigma_clip : float) (st : clip_state) : clip_state :=
  let subset' := List.filter (fun x => negb (spec_exceeds sigma_clip (mean st) (data_clip st) x))
                             (data_clip st) in
  let mean' := np.nanmean subset' in
  {| diff := relative_change (mean st) mean'; mean := mean'; data_clip := subset' |}.

Fixpoint spec_repeat (fuel : nat) (sigma_clip tolerance : float) (st : clip_state)
  : option clip_state :=
  match fuel with
  | O => None
  | S fuel' =>
      let st' := spec_step sigma_clip st in
      if SFleb (diff st') tolerance then Some st'
      else spec_repeat fuel' sigma_clip tolerance st'
  end.

Definition spec_robust_variance (fuel : nat) (data : list float)
    (sigma_clip tolerance : float) : option float :=
  match spec_repeat fuel sigma_clip tolerance (clip_init data) with
  | Some st => Some (np.nanvar (data_clip st))
  | None => None
  end.

(** ** Exceptions and results *)

Inductive exn : Type :=
| NameError (name : string)
| ValueError
| OverflowError
| LibraryError (origin : string).

Inductive result (A : Type) : Type :=
| Ok (a : A)
| Raise (e : exn).

Arguments Ok {A} a.
Arguments Raise {A} e.

#[global] Instance result_ret : MRet result := fun A a => Ok a.

#[global] Instance result_bind : MBind result := fun A B k r =>
  match r with
  | Ok a => k a
  | Raise e => Raise e
  end.

#[global] Instance result_fmap : FMap result := fun A B f r =>
  match r with
  | Ok a => Ok (f a)
  | Raise e => Raise e
  end.

Definition returns {A : Type} (r : result A) : Prop := exists a, r = Ok a.

(** ** Two-dimensional arrays and basic slicing *)

(** A numpy array of two dimensions carries its shape even when it has
    no row, so the shape is stored next to the rows. *)
Record ndarray : Type := NdArray {
  nrows : nat;
  ncols : nat;
  cells : list (list float)
}.

Definition shape (a : ndarray) : nat * nat := (nrows a, ncols a).

Definition wf_ndarray (a : ndarray) : Prop :=
  length (cells a) = nrows a /\ Forall (fun r => length r = ncols a) (cells a).

Definition cell (a : ndarray) (i j : nat) : option float :=
  match cells a !! i with
  | Some r => r !! j
  | None => None
  end.

(** [start:stop] *)
Record slice : Type := Slice { start : Z; stop : Z }.

(** Python's adjustment of a slice bound to a sequence of length [len]:
    a negative bound counts from the end, and the result is clipped to
    [0 .. len]. *)
Definition adjust_index (i len : Z) : Z :=
  if i <? 0 then Z.max (i + len) 0 else Z.min i len.

Definition slice_lo (s : slice) (len : nat) : nat :=
  Z.to_nat (adjust_index (start s) (Z.of_nat len)).

Definition slice_len (s : slice) (len : nat) : nat :=
  Z.to_nat (adjust_index (stop s) (Z.of_nat len) - adjust_index (start s) (Z.of_nat len)).

Definition slice_list {A : Type} (s : slice) (l : list A) : list A :=
  take (slice_len s (length l)) (drop (slice_lo s (length l)) l).

(** [arr[slicer]] for [slicer = np.s_[a:b, c:d]] *)
Definition getitem (arr : ndarray) (slicer : slice * slice) : ndarray :=
  {| nrows := slice_len (fst slicer) (nrows arr);
     ncols := slice_len (snd slicer) (ncols arr);
     cells := map (slice_list (snd slicer)) (slice_list (fst slicer) (cells arr)) |}.

(** [np.zeros((r, c))], on a machine that has the memory for the array:
    a negative dimension is refused, and the failure of an allocation
    that is too large for the machine ([MemoryError]) is not modelled.
    The statements on the padded path are about what is returned when
    the call returns. *)
Definition np_zeros (r c : Z) : result ndarray :=
  if (r <? 0) || (c <? 0) then Raise ValueError
  else Ok {| nrows := Z.to_nat r; ncols := Z.to_nat c;
             cells := replicate (Z.to_nat r) (replicate (Z.to_nat c) F64.zero) |}.

(** Can an axis of length [s] be assigned to an axis of length [t]? *)
Definition broadcastable (s t : nat) : bool := (s =? t)%nat || (s =? 1)%nat.

Fixpoint overwrite_rows (width : nat) (src dst : list (list float)) : list (list float) :=
  match src, dst with
  | s :: src', d :: dst' => (take width s ++ drop width d) :: overwrite_rows width src' dst'
  | _, _ => dst
  end.

(** [temp[:sliced.shape[0], :sliced.shape[1]] = sliced] *)
Definition assign_corner (temp sliced : ndarray) : result ndarray :=
  let t0 := slice_len (Slice 0 (Z.of_nat (nrows sliced))) (nrows temp) in
  let t1 := slice_len (Slice 0 (Z.of_nat (ncols sliced))) (ncols temp) in
  if broadcastable (nrows sliced) t0 && broadcastable (ncols sliced) t1 then
    Ok {| nrows := nrows temp; ncols := ncols temp;
          cells := overwrite_rows t1 (take t0 (cells sliced)) (cells temp) |}
  else Raise ValueError.

(** ** arr_slice *)

Definition arr_slice (arr : ndarray) (slicer : slice * slice) (size : Z) : result ndarray :=
  let sliced := getitem arr slicer in
  if negb (nrows sliced =? ncols sliced)%nat then
    temp ← np_zeros size size;
    assign_corner temp sliced
  else Ok sliced.

(** ** The window slicer of [cutouts]

    [int(isize / 2.)] truncates the quotient towards zero.  [half_size] is
    the integer quotient, which is what the float computation gives as
    long as [isize] converts to a float exactly (up to 2^53);
    [half_size_float] below is the computation through binary64 as Python
    does it, for every integer. *)
Definition half_size (size : Z) : Z := Z.quot size 2.

(** [np.s_[pix[1] - half:pix[1] + half, pix[0] - half:pix[0] + half]] *)
Definition cutouts_slicer (pix : Z * Z) (size : Z) : slice * slice :=
  let half := half_size size in
  (Slice (snd pix - half) (snd pix + half), Slice (fst pix - half) (fst pix + half)).

(** [arr_slice(fits.getdata(...), slicer, size)] as called in [cutouts],
    for the optical and for the radio image alike. *)
Definition cutouts_cut (image : ndarray) (pix : Z * Z) (size : Z) : result ndarray :=
  arr_slice image (cutouts_slicer pix size) size.

(** An array given by its rows, all of length [c]. *)
Definition mk_array (c : nat) (rows : list (list Z)) : ndarray :=
  {| nrows := length rows; ncols := c; cells := map (map fl) rows |}.

(** *** The requested window against the parent raster *)

(** Rows [cy-h, cy+h) and columns [cx-h, cx+h) of the parent. *)
Definition window_lo (c size : Z) : Z := c - half_size size.
Definition window_hi (c size : Z) : Z := c + half_size size.

(** The window meets the parent raster in at least one cell. *)
Definition window_meets (image : ndarray) (pix : Z * Z) (size : Z) : bool :=
  (Z.max (window_lo (snd pix) size) 0 <? Z.min (window_hi (snd pix) size) (Z.of_nat (nrows image)))
  && (Z.max (window_lo (fst pix) size) 0 <? Z.min (window_hi (fst pix) size) (Z.of_nat (ncols image))).

(** The cell of the parent raster that window position [(i, j)] shows,
    if [(i, j)] is a position of the window and lies inside the parent. *)
Definition parent_cell (image : ndarray) (pix : Z * Z) (size : Z) (i j : nat) : option float :=
  let r := window_lo (snd pix) size + Z.of_nat i in
  let c := window_lo (fst pix) size + Z.of_nat j in
  if (r <? window_hi (snd pix) size) && (c <? window_hi (fst pix) size)
     && (0 <=? r) && (0 <=? c)
  then cell image (Z.to_nat r) (Z.to_nat c) else None.

(** The cutout the specification asks for at window position [(i, j)]:
    the parent's cell where there is one, zero elsewhere. *)
Definition spec_cutout_cell (image : ndarray) (pix : Z * Z) (size : Z) (i j : nat) : float :=
  default F64.zero (parent_cell image pix size i j).

(** ** The integer pixel centre

    [int(x)] on a float64: the fractional part is dropped. *)
Definition py_int (x : float) : result Z :=
  match x with
  | S754_nan => Raise ValueError
  | S754_infinity _ => Raise OverflowError
  | S754_zero _ => Ok 0
  | S754_finite s m e => Ok (cond_Zopp s (Z.shiftl (Zpos m) e))
  end.

(** [[int(x) for x in ipix[0]]] *)
Definition pixel_centre (xy : float * float) : result (Z * Z) :=
  x ← py_int (fst xy);
  y ← py_int (snd xy);
  Ok (x, y).

(** The rational value of a float that is neither NaN nor infinite. *)
Definition to_Q (x : float) : Q :=
  match x with
  | S754_finite s m e => (inject_Z (cond_Zopp s (Zpos m)) * 2 ^ e)%Q
  | _ => 0%Q
  end.

Definition is_finite (x : float) : bool :=
  match x with
  | S754_finite _ _ _ | S754_zero _ => true
  | _ => false
  end.

(** Rounding to the nearest integer, ties to the even one. *)
Definition round_half_even_Q (v : Q) : Z :=
  let f := Qfloor v in
  match Qcompare (v - inject_Z f) (1 # 2) with
  | Lt => f
  | Gt => f + 1
  | Eq => if Z.even f then f else f + 1
  end.

(** The conversion as the specification words it: round half to even,
    then truncate to an integer. *)
Definition spec_pixel_index (x : float) : Z :=
  let r := round_half_even_Q (to_Q x) in
  Z.quot r 1.

(** Truncation towards zero of a rational. *)
Definition Qtrunc (v : Q) : Z :=
  if Qle_bool 0 v then Qfloor v else Qceiling v.

(** ** The half-width as Python computes it

    [isize / 2.] converts the integer to a float (rounding to nearest
    even, [OverflowError] when the integer is too large for a float),
    divides by 2.0, and [int] drops the fractional part. *)
Definition half_size_float (size : Z) : result Z :=
  let as_float := F64.of_Z size in
  if F64.is_inf as_float then Raise OverflowError
  else py_int (F64.div as_float (F64.of_Z 2)).

(** The slicer of [cutouts] for a given half-width. *)
Definition cutouts_slicer_half (pix : Z * Z) (half : Z) : slice * slice :=
  (Slice (snd pix - half) (snd pix + half), Slice (fst pix - half) (fst pix + half)).

(** Lines 284 to 288 of [cutouts] with the half-width computed through
    binary64: it agrees with [cutouts_cut] whenever the float computation
    gives the integer quotient. *)
Definition cutouts_cut_float (image : ndarray) (pix : Z * Z) (size : Z) : result ndarray :=
  half ← half_size_float size;
  arr_slice image (cutouts_slicer_half pix half) size.

(** The array with no row and no column. *)
Definition empty_array : ndarray := {| nrows := 0; ncols := 0; cells := [] |}.

(** ** Names bound in the module, and [cutouts2]

    A name that is not local to a function is looked up among the names
    the module has bound (its imports, assignments, [def]s and [class]es)
    and then among the builtins; when it is in neither, Python raises
    [NameError]. *)

Definition module_globals : list string :=
  [ "division"; "print_function"; "time"; "warnings"; "wcs"; "plt"; "ndimage"; "np";
    "reproject"; "fits"; "AstropyWarning"; "verbose"; "verboseprint"; "Timer";
    "get_background_variance"; "rms"; "arr_slice"; "cutouts2"; "cutouts" ]%string.

(** The builtins the module refers to.  The attributes every module has
    ([__name__] and the like) and the names assigned under
    [if __name__ == '__main__'] are left out of the two lists; none of
    them is [pyfits] or [math]. *)
Definition builtins : list string :=
  [ "print"; "int"; "len"; "range"; "object"; "Exception"; "RuntimeWarning" ]%string.

Definition load_global (name : string) : result unit :=
  if bool_decide (name ∈ module_globals ++ builtins) then Ok tt
  else Raise (NameError name).

(** Python values, as far as [cutouts2] looks into them; the objects of
    astropy, numpy and matplotlib are opaque handles. *)
#[local] Set Warnings "-register-all".

Inductive value : Type :=
| VNone
| VInt (z : Z)
| VFloat (x : float)
| VStr (s : string)
| VSeq (items : list value)
| VObj (handle : nat).

(** [v[0]] *)
Definition first_item (v : value) : result value :=
  match v with
  | VSeq (x :: _) => Ok x
  | VSeq [] => Raise (LibraryError "IndexError")
  | _ => Raise (LibraryError "TypeError")
  end.

(** [int(v)] *)
Definition int_of_value (v : value) : result value :=
  match v with
  | VInt z => Ok (VInt z)
  | VFloat x => z ← py_int x; Ok (VInt z)
  | _ => Raise (LibraryError "TypeError")
  end.

(** [[int(x) for x in v]] *)
Definition ints_of (v : value) : result value :=
  match v with
  | VSeq items =>
      ints ← foldr (fun x acc => i ← (_ ← load_global "int"; int_of_value x);
                                 rest ← acc; Ok (i :: rest)) (Ok []) items;
      Ok (VSeq ints)
  | _ => Raise (LibraryError "TypeError")
  end.

(** The local variables of [cutouts2] that are live after line 194. *)
Record cutouts2_locals : Type := Cutouts2Locals {
  l_PowerNorm : value;
  l_ipix : value;
  l_rpix : value;
  l_icut : value;
  l_imap : value;
  l_rcut : value;
  l_rmap : value
}.

Section Cutouts2.

(** What a library call does: it depends on the call site (the source
    line), on what is called and on the arguments, and either returns a
    value or raises. *)
Variable lib : nat -> string -> list value -> result value.

(** Lines 205 to 241, which need [data] from line 204, and read
    [radio_image] and [vmax] among the arguments. *)
Variable lines_205_241 : cutouts2_locals -> value -> value -> value -> result value.

(** [verboseprint(...)] with the module's [verbose = False]: the
    function that returns [None]. *)
Definition verboseprint (args : list value) : result value :=
  _ ← load_global "verboseprint"; Ok VNone.

(** [fits.getdata(path)] *)
Definition fits_getdata (line : nat) (path : value) : result value :=
  _ ← load_global "fits"; lib line "fits.getdata" [path].

(** [wcs.WCS(path)] *)
Definition wcs_WCS (line : nat) (path : value) : result value :=
  _ ← load_global "wcs"; lib line "wcs.WCS" [path].

(** Lines 164 to 194. *)
Definition cutouts2_lines_164_194
    (infrared_mosaic radio_image targetRA targetDEC isize rsize : value)
  : result cutouts2_locals :=
  PowerNorm ← lib 164 "from matplotlib.colors import PowerNorm" [];
  Cutout2D ← lib 165 "from astropy.nddata.utils import Cutout2D" [];
  let target_radec := VSeq [targetRA; targetDEC] in
  imap_full ← wcs_WCS 173 infrared_mosaic;
  ipix ← lib 174 "WCS.wcs_world2pix" [imap_full; VSeq [target_radec]; VInt 1];
  ipix ← (row ← first_item ipix; ints_of row);
  _ ← (_ ← load_global "verboseprint";
       d ← fits_getdata 177 infrared_mosaic;
       s ← lib 177 "ndarray.shape" [d];
       verboseprint [VStr "o_full shape"; s]);
  _ ← verboseprint [VStr "optical pix center"; ipix];
  rmap_full ← (w ← wcs_WCS 181 radio_image; lib 181 "WCS.celestial" [w]);
  rpix ← lib 182 "WCS.wcs_world2pix" [rmap_full; VSeq [target_radec]; VInt 1];
  rpix ← (row ← first_item rpix; ints_of row);
  _ ← (_ ← load_global "verboseprint";
       d ← fits_getdata 185 radio_image;
       s ← lib 185 "ndarray.shape" [d];
       verboseprint [VStr "r_full shape"; s]);
  _ ← verboseprint [VStr "radio pix center"; rpix];
  icut ← (d ← fits_getdata 188 infrared_mosaic;
          w ← wcs_WCS 189 infrared_mosaic;
          c ← lib 189 "WCS.celestial" [w];
          lib 188 "Cutout2D" [Cutout2D; d; ipix; VSeq [isize; isize]; VStr "partial";
                              VFloat F64.zero; c]);
  imap ← lib 190 "Cutout2D.wcs" [icut];
  rcut ← (d ← fits_getdata 192 radio_image;
          d0 ← lib 192 "ndarray.__getitem__" [d; VInt 0];
          d00 ← lib 192 "ndarray.__getitem__" [d0; VInt 0];
          w ← wcs_WCS 193 radio_image;
          c ← lib 193 "WCS.celestial" [w];
          lib 192 "Cutout2D" [Cutout2D; d00; rpix; VSeq [rsize; rsize]; VStr "partial";
                              VFloat F64.zero; c]);
  rmap ← lib 194 "Cutout2D.wcs" [rcut];
  Ok {| l_PowerNorm := PowerNorm; l_ipix := ipix; l_rpix := rpix;
        l_icut := icut; l_imap := imap; l_rcut := rcut; l_rmap := rmap |}.

(** Line 204: [data = pyfits.getdata(radio_image)] *)
Definition cutouts2_line_204 (radio_image : value) : result value :=
  _ ← load_global "pyfits";
  lib 204 "pyfits.getdata" [radio_image].

Definition cutouts2 (infrared_mosaic radio_image radio_rms targetRA targetDEC : value)
    (isize rsize vmax verbose : value) : result value :=
  locals ← cutouts2_lines_164_194 infrared_mosaic radio_image targetRA targetDEC isize rsize;
  data ← cutouts2_line_204 radio_image;
  lines_205_241 locals data radio_image vmax.

End Cutouts2.

(** A library in which every call returns a fresh handle, except that the
    sky to pixel conversion returns the pixel pair [xy]. *)
Definition lib_returning (xy : value) (line : nat) (name : string) (args : list value)
  : result value :=
  if String.eqb name "WCS.wcs_world2pix" then Ok (VSeq [xy]) else Ok (VObj line).

(** A library whose file access fails. *)
Definition lib_missing_file (line : nat) (name : string) (args : list value)
  : result value :=
  if String.eqb name "wcs.WCS" then Raise (LibraryError "FileNotFoundError")
  else Ok (VObj line).

(** ** rms

    [from math import sqrt] binds [sqrt] inside the function only.  The
    names [len] and [np] are looked up as globals; so is [old_div], which
    line 126 calls before it evaluates the arguments. *)

(** [len(v)] *)
Definition len_of_value (v : value) : result nat :=
  match v with
  | VSeq items => Ok (length items)
  | VStr s => Ok (String.length s)
  | _ => Raise (LibraryError "TypeError")
  end.

Section Rms.

(** The library calls, as for [cutouts2]. *)
Variable lib : nat -> string -> list value -> result value.

(** What line 126 does once [sqrt] and [old_div] have been loaded: the sum
    of squares, the division and the square root. *)
Variable line_126_call : value -> value -> result value.

(** Lines 123 to 125: the import, and the flattening of an array of more
    than one dimension. *)
Definition rms_lines_123_125 (arr : value) : result (value * value) :=
  sqrt ← lib 123 "from math import sqrt" [];
  _ ← load_global "len";
  s ← lib 124 "ndarray.shape" [arr];
  n ← len_of_value s;
  arr ← (if (1 <? n)%nat then lib 125 "ndarray.flatten" [arr] else Ok arr);
  Ok (sqrt, arr).

Definition rms (arr : value) : result value :=
  '(sqrt, arr) ← rms_lines_123_125 arr;
  _ ← load_global "old_div";
  line_126_call sqrt arr.

End Rms.

(** ** Lines 208 to 210 of [cutouts2]: the contour levels

    Line 208 divides the peak [np.nanmax(data)] by [local_rms] in
    binary64.  Line 209 then evaluates [math.floor(math.log(..., 2))]:
    the first thing it does is to look up the global name [math].  What
    follows that lookup (the logarithm, its floor, [np.logspace] and the
    products with [3*local_rms]) is taken as an arbitrary continuation. *)

Section ContourLines.

(** The rest of line 209 and line 210, given [local_rms] and the ratio. *)
Variable line_209_210 : float -> float -> result (list float).

Definition cutouts2_lines_208_210 (local_rms peak : float) : result (list float) :=
  _ ← load_global "np";
  let highest_number_of_sigma := F64.div peak local_rms in
  _ ← load_global "math";
  line_209_210 local_rms highest_number_of_sigma.

End ContourLines.

(** ** The optical cutout of [cutouts], from the converted coordinates

    Lines 270 and 284 to 288: the pixel centre is read off the row that
    the sky to pixel conversion returned, and the mosaic is cut around it. *)
Definition cutouts_icut (mosaic : ndarray) (world2pix_row : float * float) (isize : Z)
  : result ndarray :=
  ipix ← pixel_centre world2pix_row;
  cutouts_cut mosaic ipix isize.

(** A float whose sign bit is clear, or NaN: plus zero, a positive
    number or plus infinity. *)
Definition nonneg_or_nan (x : float) : Prop :=
  match x with
  | S754_nan => True
  | S754_zero s => s = false
  | S754_infinity s => s = false
  | S754_finite s _ _ => s = false
  end.

(** Samples for the examples: a negative ramp, and three NaN. *)
Definition neg_ramp3 : list float := [fl (-1); fl (-2); fl (-3)].
Definition nan3 : list float := [F64.nan; F64.nan; F64.nan].

(** ** Data for the examples *)

(** Three equal samples. *)
Definition ones3 : list float := [fl 1; fl 1; fl 1].

(** Thirty-six samples at [-1] and one at [73]: the mean is [1], the
    standard deviation [12], and clipping at five sigma removes [73]. *)
Definition flip_data : list float := repeat (fl (-1)) 36 ++ [fl 73].

Definition ramp3 : list float := [fl 1; fl 2; fl 3].

Definition img4 : ndarray :=
  mk_array 4 [[11; 12; 13; 14]; [21; 22; 23; 24]; [31; 32; 33; 34]; [41; 42; 43; 44]].

Definition zeros4 : ndarray := mk_array 4 [[0; 0; 0; 0]; [0; 0; 0; 0]; [0; 0; 0; 0]; [0; 0; 0; 0]].

(** * Properties *)

(** ** Facts on binary64 used below *)

Lemma sub_diag_zero_or_nan (x : float) :
  F64.sub x x = F64.zero \/ F64.sub x x = F64.nan.
Proof.
  destruct x as [s | s | | s m e]; cbn.
  - left. now destruct s.
  - right. now destruct s.
  - now right.
  - left. unfold F64.sub, SFsub. now rewrite Z.sub_diag.
Qed.

Lemma div_zero_l (s : bool) (y : float) :
  F64.is_zero (F64.div (S754_zero s) y) = true \/ F64.div (S754_zero s) y = F64.nan.
Proof. destruct y; cbn; auto. Qed.

Lemma relative_change_diag (m : float) :
  F64.is_zero (relative_change m m) = true \/ relative_change m m = F64.nan.
Proof.
  unfold relative_change.
  destruct (sub_diag_zero_or_nan m) as [-> | ->].
  - apply div_zero_l.
  - now right.
Qed.

Lemma gtb_zero_false (d tol : float) :
  F64.is_zero d = true -> F64.ltb tol F64.zero = false -> F64.gtb d tol = false.
Proof.
  destruct d; try discriminate. intros _.
  destruct tol as [? | [] | | [] ? ?]; cbn; congruence.
Qed.

Lemma gtb_nan_false (tol : float) : F64.gtb F64.nan tol = false.
Proof. now destruct tol. Qed.

(** ** The sigma-clipping loop *)

Lemma mask_select_sublist (keep : float -> bool) (a : list float) :
  sublist (np.mask_select keep a) a.
Proof.
  unfold np.mask_select.
  induction a as [| x a IH]; cbn.
  - constructor.
  - destruct (keep x); now constructor.
Qed.

Lemma mask_select_same_or_shorter (keep : float -> bool) (a : list float) :
  np.mask_select keep a = a \/ (length (np.mask_select keep a) < length a)%nat.
Proof.
  unfold np.mask_select.
  induction a as [| x a IH]; cbn.
  - now left.
  - destruct (keep x); cbn.
    + destruct IH as [-> | IH]; [now left | right; lia].
    + right. pose proof (sublist_length _ _ (mask_select_sublist keep a)) as Hle.
      unfold np.mask_select in Hle. lia.
Qed.

Lemma clip_step_submseteq (sigma_clip : float) (st : clip_state) :
  data_clip (clip_step sigma_clip st) ⊆+ data_clip st.
Proof. apply sublist_submseteq, mask_select_sublist. Qed.

Lemma clip_step_mean (sigma_clip : float) (st : clip_state) :
  mean (clip_step sigma_clip st) = np.nanmean (data_clip (clip_step sigma_clip st)).
Proof. reflexivity. Qed.

(** When an iteration removes nothing, the loop guard fails after it. *)
Lemma clip_step_unchanged_stops (sigma_clip tolerance : float) (st : clip_state) :
  mean st = np.nanmean (data_clip st) ->
  F64.ltb tolerance F64.zero = false ->
  data_clip (clip_step sigma_clip st) = data_clip st ->
  clip_continue tolerance (clip_step sigma_clip st) = false.
Proof.
  intros Hmean Htol Hsame.
  unfold clip_continue.
  assert (diff (clip_step sigma_clip st) = relative_change (mean st) (mean st)) as ->.
  { change (diff (clip_step sigma_clip st))
      with (relative_change (mean st) (np.nanmean (data_clip (clip_step sigma_clip st)))).
    now rewrite Hsame, <- Hmean. }
  destruct (relative_change_diag (mean st)) as [Hz | ->].
  - now apply gtb_zero_false.
  - apply gtb_nan_false.
Qed.

Lemma clip_loop_terminates (sigma_clip tolerance : float) :
  F64.ltb tolerance F64.zero = false ->
  forall (n : nat) (st : clip_state),
    mean st = np.nanmean (data_clip st) ->
    (length (data_clip st) <= n)%nat ->
    exists st', clip_loop (S n) sigma_clip tolerance st = Some st'.
Proof.
  intros Htol n.
  induction n as [| n IH]; intros st Hmean Hlen; cbn [clip_loop].
  - destruct (clip_continue tolerance st); [| eauto].
    destruct (mask_select_same_or_shorter
                (clip_keep sigma_clip (mean st) (data_clip st)) (data_clip st)) as [Hsame | Hlt].
    + rewrite (clip_step_unchanged_stops sigma_clip tolerance st Hmean Htol Hsame). eauto.
    + lia.
  - destruct (clip_continue tolerance st); [| eauto].
    destruct (mask_select_same_or_shorter
                (clip_keep sigma_clip (mean st) (data_clip st)) (data_clip st)) as [Hsame | Hlt].
    + change (clip_loop (S n) sigma_clip tolerance (clip_step sigma_clip st))
        with (if clip_continue tolerance (clip_step sigma_clip st)
              then clip_loop n sigma_clip tolerance (clip_step sigma_clip (clip_step sigma_clip st))
              else Some (clip_step sigma_clip st)).
      rewrite (clip_step_unchanged_stops sigma_clip tolerance st Hmean Htol Hsame). eauto.
    + apply IH; [apply clip_step_mean |].
      change (data_clip (clip_step sigma_clip st))
        with (np.mask_select (clip_keep sigma_clip (mean st) (data_clip st)) (data_clip st)).
      lia.
Qed.

Lemma clip_loop_iter (sigma_clip tolerance : float) (n : nat) :
  forall st : clip_state,
    (forall k, (k < n)%nat ->
       clip_continue tolerance (Nat.iter k (clip_step sigma_clip) st) = true) ->
    clip_continue tolerance (Nat.iter n (clip_step sigma_clip) st) = false ->
    forall fuel, (n <= fuel)%nat ->
      clip_loop fuel sigma_clip tolerance st = Some (Nat.iter n (clip_step sigma_clip) st).
Proof.
  induction n as [| n IH]; intros st Hbefore Hstop fuel Hfuel.
  - cbn in Hstop. destruct fuel; cbn [clip_loop]; now rewrite Hstop.
  - destruct fuel as [| fuel]; [lia |].
    assert (clip_continue tolerance st = true) as H0 by (apply (Hbefore 0%nat); lia).
    cbn [clip_loop]. rewrite H0.
    rewrite Nat.iter_succ_r in Hstop |- *.
    apply IH; [| exact Hstop | lia].
    intros k Hk. rewrite <- Nat.iter_succ_r. apply Hbefore. lia.
Qed.

(** C2 at the samples 1, 1, 1 with the default arguments.  The threshold
    is [1 + 5 * 0 = 1]: no sample exceeds it, so removing the samples
    greater than the threshold (the steps of C2, and the docstring's
    "removing outliers greater than a given sigma") keeps all three and
    gives the variance 0, whereas the code keeps only the samples
    strictly below the threshold, empties the subset and returns NaN. *)
Lemma estimator_not_the_spec_steps :
  get_background_variance 2 ones3 default_sigma_clip default_tolerance = Some F64.nan
  /\ spec_robust_variance 2 ones3 default_sigma_clip default_tolerance = Some F64.zero
  /\ get_background_variance 2 ones3 default_sigma_clip default_tolerance
     <> spec_robust_variance 2 ones3 default_sigma_clip default_tolerance.
Proof. vm_compute. repeat split; congruence. Qed.

(** C5, as the code has it: an iteration never adds a sample (the subset
    after it is a sub-multiset of the subset before it), and for a
    tolerance that is not negative the loop is left after at most
    [length data + 1] iterations, for every sample sequence and every
    clip threshold. *)
Theorem robust_variance_shrinks_and_terminates
    (data : list float) (sigma_clip tolerance : float) :
  F64.ltb tolerance F64.zero = false ->
  (forall n, data_clip (clip_iter sigma_clip data (S n))
               ⊆+ data_clip (clip_iter sigma_clip data n))
  /\ exists variance,
       get_background_variance (S (length data)) data sigma_clip tolerance = Some variance.
Proof.
  intros Htol. split.
  - intros n. apply clip_step_submseteq.
  - destruct (clip_loop_terminates sigma_clip tolerance Htol (length data) (clip_init data))
      as [st Hst]; [reflexivity | cbn; lia |].
    unfold get_background_variance. rewrite Hst. eauto.
Qed.

Lemma robust_variance_shrinks_and_terminates_witness :
  (forall n, data_clip (clip_iter default_sigma_clip flip_data (S n))
               ⊆+ data_clip (clip_iter default_sigma_clip flip_data n))
  /\ exists variance,
       get_background_variance (S (length flip_data)) flip_data
         default_sigma_clip default_tolerance = Some variance.
Proof.
  apply (robust_variance_shrinks_and_terminates flip_data default_sigma_clip default_tolerance).
  vm_compute. reflexivity.
Defined.

(** With a negative tolerance the guard [diff > tolerance] holds for ever
    once the subset is stable: the loop does not end. *)
Lemma negative_tolerance_diverges (fuel : nat) :
  get_background_variance fuel ramp3 default_sigma_clip (fl (-1)) = None.
Proof.
  unfold get_background_variance.
  assert (forall n, clip_loop n default_sigma_clip (fl (-1))
                      (clip_step default_sigma_clip (clip_init ramp3)) = None) as Hloop.
  { induction n as [| n IH]; [vm_compute; reflexivity |].
    cbn [clip_loop].
    replace (clip_step default_sigma_clip (clip_step default_sigma_clip (clip_init ramp3)))
      with (clip_step default_sigma_clip (clip_init ramp3)) by (vm_compute; reflexivity).
    rewrite IH. vm_compute. reflexivity. }
  destruct fuel as [| fuel]; [vm_compute; reflexivity |].
  cbn [clip_loop]. rewrite Hloop. vm_compute. reflexivity.
Qed.

(** C5 does not hold as stated.
    The tolerance -1 is negative; on the samples 1, 2, 3 the first
    iteration removes nothing, the relative change is 0, which is greater
    than -1, and so it stays: no number of iterations ends the loop. *)
Lemma negative_tolerance_never_returns :
  F64.ltb (fl (-1)) F64.zero = true
  /\ (forall fuel : nat,
        get_background_variance fuel ramp3 default_sigma_clip (fl (-1)) = None)
  /\ ~ (exists (fuel : nat) (variance : float),
          get_background_variance fuel ramp3 default_sigma_clip (fl (-1)) = Some variance).
Proof.
  split; [reflexivity | split].
  - exact negative_tolerance_diverges.
  - intros (fuel & variance & Hrun).
    rewrite negative_tolerance_diverges in Hrun. discriminate Hrun.
Qed.

(** ** The relative change on a zero denominator *)

Lemma div_abs_by_zero (num den : float) :
  F64.is_zero den = true ->
  F64.div (F64.abs num) den
    = if F64.is_zero num || F64.is_nan num then F64.nan
      else S754_infinity (match den with S754_zero s => s | _ => false end).
Proof.
  destruct den as [s | | |]; try discriminate. intros _.
  destruct num; reflexivity.
Qed.

(** C6, as the code has it.  There is no test of the denominator: when
    [mean + mean'] is zero the division is carried out in binary64, where
    it raises nothing.  If [mean - mean'] is zero as well the relative
    change is NaN and the guard [diff > tolerance] fails, so the loop
    stops; if [mean - mean'] is not zero (then [mean' = -mean]) and the
    denominator is [+0], the relative change is [+inf] and the loop goes
    on for every finite tolerance. *)
Theorem zero_denominator_relative_change (sigma_clip tolerance : float) (st : clip_state) :
  let st' := clip_step sigma_clip st in
  F64.is_zero (F64.add (mean st) (mean st')) = true ->
  (F64.is_zero (F64.sub (mean st) (mean st')) = true ->
     diff st' = F64.nan /\ clip_continue tolerance st' = false)
  /\ (F64.is_zero (F64.sub (mean st) (mean st')) = false ->
      F64.is_nan (F64.sub (mean st) (mean st')) = false ->
      F64.add (mean st) (mean st') = F64.zero ->
      diff st' = F64.pinf
      /\ (is_finite tolerance = true -> clip_continue tolerance st' = true)).
Proof.
  intros st' Hden.
  assert (diff st' = relative_change (mean st) (mean st')) as Hdiff by reflexivity.
  unfold clip_continue. rewrite Hdiff. unfold relative_change.
  rewrite (div_abs_by_zero _ _ Hden). split.
  - intros ->. cbn. split; [reflexivity | apply gtb_nan_false].
  - intros -> -> ->. cbn. split; [reflexivity |].
    destruct tolerance; cbn; congruence.
Qed.

Lemma zero_denominator_relative_change_witness :
  let st' := clip_step default_sigma_clip (clip_init flip_data) in
  diff st' = F64.pinf /\ clip_continue default_tolerance st' = true.
Proof.
  intros st'.
  destruct (zero_denominator_relative_change default_sigma_clip default_tolerance
              (clip_init flip_data)) as [_ H]; [vm_compute; reflexivity |].
  destruct H as [Hd Hc]; [vm_compute; reflexivity .. |].
  split; [exact Hd | apply Hc; vm_compute; reflexivity].
Defined.

(** C6 does not hold as stated.
    On [flip_data] with the default arguments the first iteration removes
    the sample 73 and turns the mean from 1 into -1: the denominator
    [mean + mean'] is zero, the relative change is [+inf], and the loop
    guard still holds, so a second iteration runs. *)
Lemma zero_denominator_keeps_iterating :
  let st0 := clip_init flip_data in
  let st1 := clip_step default_sigma_clip st0 in
  mean st0 = fl 1 /\ mean st1 = fl (-1)
  /\ F64.add (mean st0) (mean st1) = F64.zero
  /\ diff st1 = F64.pinf
  /\ clip_continue default_tolerance st1 = true
  /\ clip_loop 1 default_sigma_clip default_tolerance st0 <> Some st1.
Proof. vm_compute. repeat split; congruence. Qed.

(** ** No error path and no iteration cap *)

Lemma nanmean_nil : np.nanmean [] = F64.nan.
Proof. reflexivity. Qed.

Lemma relative_change_nan_r (m : float) : relative_change m F64.nan = F64.nan.
Proof. unfold relative_change. now destruct m. Qed.

(** C8, as the code has it.  An empty sample sequence raises nothing: the
    function returns NaN, whatever the clip threshold and the tolerance.
    The loop has no iteration cap either: it is left only when the
    relative change is no longer greater than the tolerance, and on the
    samples 1, 2, 3 with tolerance -1 no number of iterations ends it. *)
Theorem estimator_no_error_no_cap :
  (forall (sigma_clip tolerance : float) (fuel : nat),
     get_background_variance (S fuel) [] sigma_clip tolerance = Some F64.nan)
  /\ (forall cap : nat,
        get_background_variance cap ramp3 default_sigma_clip (fl (-1)) = None).
Proof.
  split.
  - intros sigma_clip tolerance fuel.
    unfold get_background_variance. cbn [clip_loop].
    destruct (clip_continue tolerance (clip_init [])); [| reflexivity].
    assert (clip_continue tolerance (clip_step sigma_clip (clip_init [])) = false) as Hstop.
    { unfold clip_continue. cbn [clip_step diff clip_init data_clip mean np.mask_select List.filter].
      rewrite nanmean_nil, relative_change_nan_r. apply gtb_nan_false. }
    destruct fuel; cbn [clip_loop]; rewrite Hstop; reflexivity.
  - apply negative_tolerance_diverges.
Qed.

(** C8 does not hold as stated.
    The empty sample sequence with the default arguments: the function
    returns, and what it returns is NaN. *)
Lemma empty_input_returns_nan :
  get_background_variance 1 [] default_sigma_clip default_tolerance = Some F64.nan
  /\ get_background_variance 1 [] default_sigma_clip default_tolerance <> None.
Proof. vm_compute. split; congruence. Qed.

(** ** The cutout window *)

Lemma half_size_double_le (size : Z) : 0 <= size -> 0 <= half_size size /\ 2 * half_size size <= size.
Proof.
  intros Hsize. unfold half_size.
  rewrite Z.quot_div_nonneg by lia.
  split; [apply Z.div_pos; lia | apply Z.mul_div_le; lia].
Qed.

(** A window of half-width [h] never selects more than [2 h] indices,
    wherever it lies and whatever Python makes of a negative bound. *)
Lemma slice_len_window (c h : Z) (len : nat) :
  0 <= h -> (Z.of_nat (slice_len (Slice (c - h) (c + h)) len) <= 2 * h).
Proof.
  intros Hh. unfold slice_len, adjust_index. cbn [start stop].
  destruct (Z.ltb_spec (c - h) 0), (Z.ltb_spec (c + h) 0); lia.
Qed.

Lemma slice_len_prefix (s len : nat) :
  (s <= len)%nat -> slice_len (Slice 0 (Z.of_nat s)) len = s.
Proof.
  intros Hs. unfold slice_len, adjust_index. cbn [start stop].
  destruct (Z.ltb_spec 0 0), (Z.ltb_spec (Z.of_nat s) 0); lia.
Qed.

Lemma assign_corner_fits (temp sliced : ndarray) :
  (nrows sliced <= nrows temp)%nat -> (ncols sliced <= ncols temp)%nat ->
  returns (assign_corner temp sliced).
Proof.
  intros Hr Hc. unfold assign_corner.
  rewrite !slice_len_prefix by assumption.
  unfold broadcastable. rewrite !Nat.eqb_refl. cbn. eexists. reflexivity.
Qed.

Lemma cutouts_cut_float_exact (image : ndarray) (pix : Z * Z) (size : Z) :
  half_size_float size = Ok (half_size size) ->
  cutouts_cut_float image pix size = cutouts_cut image pix size.
Proof. intros Hhalf. unfold cutouts_cut_float. now rewrite Hhalf. Qed.

(** The float computation of the half-width gives the integer quotient
    for the sizes of the source and all sizes up to 1024; beyond 2^53
    the conversion rounds (2^54 + 3 becomes 2^54 + 4), and an integer too
    large for a float raises. *)
Lemma half_size_float_examples :
  forallb (fun n : nat =>
             match half_size_float (Z.of_nat n) with
             | Ok h => h =? half_size (Z.of_nat n)
             | Raise _ => false
             end) (seq 0 1025) = true
  /\ half_size_float (2 ^ 54 + 3) = Ok (2 ^ 53 + 2)
  /\ half_size (2 ^ 54 + 3) = 2 ^ 53 + 1
  /\ half_size_float (10 ^ 400) = Raise OverflowError.
Proof. vm_compute. repeat split. Qed.




(** C1 at three inputs.  The padding runs only when the slice is not
    square, so a square slice of the wrong size is returned as it is:
    an empty array for a window wholly outside the parent, a 3 by 3 array
    for a window of size 4 cut equally on both axes, and a 2 by 2 array
    for the odd size 3 well inside the parent. *)
Theorem cutout_shape_not_always_size :
  (window_meets img4 (10, 10) 2 = false
   /\ (shape <$> cutouts_cut img4 (10, 10) 2) = Ok (0%nat, 0%nat))
  /\ (shape <$> cutouts_cut img4 (3, 3) 4) = Ok (3%nat, 3%nat)
  /\ (shape <$> cutouts_cut img4 (2, 2) 3) = Ok (2%nat, 2%nat).
Proof. vm_compute. repeat split. Qed.

(** C9 at two inputs.  The slice is always written at the top left corner
    of the zero array, and a window that starts before row 0 gets a
    negative slice bound, which Python counts from the end.  For the
    window of rows -1..2 and columns 0..3 of [img4] the result is all
    zero, although rows 0..2 of the parent lie in the window: window cell
    (1, 0) should show the parent's cell (0, 0), which is 11.  On the
    parent with three rows the only row copied is the parent's last one,
    and it lands on window row 0, which lies outside the parent. *)
Theorem cutout_low_edge_misplaced :
  (window_meets img4 (2, 1) 4 = true
   /\ cutouts_cut img4 (2, 1) 4 = Ok zeros4
   /\ spec_cutout_cell img4 (2, 1) 4 1 0 = fl 11
   /\ cell zeros4 1 0 = Some (fl 0))
  /\ (let img3 := mk_array 4 [[11; 12; 13; 14]; [21; 22; 23; 24]; [31; 32; 33; 34]] in
      cutouts_cut img3 (2, 1) 4
        = Ok (mk_array 4 [[31; 32; 33; 34]; [0; 0; 0; 0]; [0; 0; 0; 0]; [0; 0; 0; 0]])
      /\ spec_cutout_cell img3 (2, 1) 4 0 0 = fl 0
      /\ spec_cutout_cell img3 (2, 1) 4 3 0 = fl 31).
Proof. vm_compute. repeat split. Qed.

(** ** The integer pixel centre *)

Lemma Qtrunc_comp (v w : Q) : (v == w)%Q -> Qtrunc v = Qtrunc w.
Proof.
  intros Heq. unfold Qtrunc.
  assert (Qle_bool 0 v = Qle_bool 0 w) as ->.
  { destruct (Qle_bool 0 w) eqn:Hw.
    - apply Qle_bool_iff. rewrite Heq. now apply Qle_bool_iff.
    - destruct (Qle_bool 0 v) eqn:Hv; [| reflexivity].
      apply Qle_bool_iff in Hv. rewrite Heq in Hv. apply Qle_bool_iff in Hv. congruence. }
  destruct (Qle_bool 0 w); [apply Qfloor_comp | apply Qceiling_comp]; exact Heq.
Qed.

Lemma Qtrunc_inject_Z (z : Z) : Qtrunc (inject_Z z) = z.
Proof. unfold Qtrunc. destruct (Qle_bool 0 (inject_Z z)); [apply Qfloor_Z | apply Qceiling_Z]. Qed.

(** Truncation moves towards zero, by less than one. *)
Lemma Qtrunc_spec (v : Q) :
  ((0 <= v)%Q -> (0 <= inject_Z (Qtrunc v) <= v)%Q /\ (v < inject_Z (Qtrunc v) + 1)%Q)
  /\ ((v < 0)%Q -> (v <= inject_Z (Qtrunc v) <= 0)%Q /\ (inject_Z (Qtrunc v) - 1 < v)%Q).
Proof.
  unfold Qtrunc. split; intros Hv.
  - apply Qle_bool_iff in Hv as Hb. rewrite Hb. repeat split.
    + change 0%Q with (inject_Z 0). rewrite <- Zle_Qle.
      rewrite <- (Qfloor_Z 0). now apply Qfloor_resp_le.
    + apply Qfloor_le.
    + pose proof (Qlt_floor v) as H. now rewrite inject_Z_plus in H.
  - assert (Qle_bool 0 v = false) as ->.
    { destruct (Qle_bool 0 v) eqn:Hb; [| reflexivity].
      apply Qle_bool_iff in Hb. exfalso. exact (Qlt_not_le _ _ Hv Hb). }
    repeat split.
    + apply Qle_ceiling.
    + change 0%Q with (inject_Z 0). rewrite <- Zle_Qle.
      rewrite <- (Qceiling_Z 0). apply Qceiling_resp_le. now apply Qlt_le_weak.
    + pose proof (Qceiling_lt v) as H.
      unfold Z.sub in H. rewrite inject_Z_plus in H. exact H.
Qed.

Lemma to_Q_nonneg_exponent (s : bool) (m : positive) (e : Z) :
  0 <= e -> (to_Q (S754_finite s m e) == inject_Z (cond_Zopp s (Zpos m) * 2 ^ e))%Q.
Proof.
  intros He. cbn [to_Q]. rewrite inject_Z_mult, Zpower_Qpower by exact He. reflexivity.
Qed.

Lemma to_Q_neg_exponent (s : bool) (m k : positive) :
  (to_Q (S754_finite s m (Zneg k))
   == inject_Z (cond_Zopp s (Zpos m)) / inject_Z (2 ^ Zpos k))%Q.
Proof.
  cbn [to_Q]. change (Zneg k) with (- Zpos k).
  rewrite Qpower_opp, Zpower_Qpower by lia. reflexivity.
Qed.

Lemma py_int_finite (s : bool) (m : positive) (e : Z) :
  cond_Zopp s (Z.shiftl (Zpos m) e) = Qtrunc (to_Q (S754_finite s m e)).
Proof.
  destruct e as [| k | k].
  - rewrite (Qtrunc_comp _ _ (to_Q_nonneg_exponent s m 0 (Z.le_refl 0))).
    rewrite Qtrunc_inject_Z, Z.pow_0_r, Z.mul_1_r. reflexivity.
  - rewrite (Qtrunc_comp _ _ (to_Q_nonneg_exponent s m (Zpos k) (Pos2Z.is_nonneg k))).
    rewrite Qtrunc_inject_Z, Z.shiftl_mul_pow2 by apply Pos2Z.is_nonneg.
    destruct s; cbn [cond_Zopp]; [symmetry; apply Z.mul_opp_l | reflexivity].
  - rewrite (Qtrunc_comp _ _ (to_Q_neg_exponent s m k)).
    change (Z.shiftl (Zpos m) (Zneg k)) with (Z.shiftr (Zpos m) (Zpos k)).
    rewrite Z.shiftr_div_pow2 by lia.
    assert (0 < 2 ^ Zpos k) as Hpow by (apply Z.pow_pos_nonneg; lia).
    assert (0 < inject_Z (2 ^ Zpos k))%Q as HpowQ by (rewrite <- (Zlt_Qlt 0); exact Hpow).
    unfold Qtrunc. destruct s; cbn [cond_Zopp].
    + assert (Qle_bool 0 (inject_Z (- Zpos m) / inject_Z (2 ^ Zpos k)) = false) as ->.
      { destruct (Qle_bool 0 _) eqn:Hb; [| reflexivity].
        apply Qle_bool_iff in Hb. exfalso.
        apply (Qmult_le_r _ _ _ HpowQ) in Hb.
        rewrite Qmult_0_l in Hb.
        unfold Qdiv in Hb. rewrite <- Qmult_assoc, (Qmult_comm (/ _)), Qmult_inv_r, Qmult_1_r in Hb.
        - rewrite <- (Zle_Qle 0) in Hb. lia.
        - intros H0. rewrite H0 in HpowQ. discriminate HpowQ. }
      unfold Qceiling. f_equal.
      assert (- (inject_Z (- Zpos m) / inject_Z (2 ^ Zpos k))
              == inject_Z (Zpos m) / inject_Z (2 ^ Zpos k))%Q as ->.
      { rewrite inject_Z_opp. unfold Qdiv. ring. }
      apply Zdiv_Qdiv.
    + assert (Qle_bool 0 (inject_Z (Zpos m) / inject_Z (2 ^ Zpos k)) = true) as ->.
      { apply Qle_bool_iff. apply Qle_shift_div_l; [exact HpowQ |].
        rewrite Qmult_0_l. rewrite <- (Zle_Qle 0). lia. }
      apply Zdiv_Qdiv.
Qed.

(** Both coordinates of the pixel centre are truncated. *)
Lemma pixel_centre_finite (sx sy : bool) (mx my : positive) (ex ey : Z) :
  pixel_centre (S754_finite sx mx ex, S754_finite sy my ey)
  = Ok (Qtrunc (to_Q (S754_finite sx mx ex)), Qtrunc (to_Q (S754_finite sy my ey))).
Proof.
  unfold pixel_centre. cbn [fst snd py_int mbind result_bind].
  now rewrite !py_int_finite.
Qed.

(** C10, as the code has it.  The integer pixel index is [int(x)]: the
    real-valued conversion result is truncated towards zero, with no
    rounding step before; the index lies between zero and [x], less than
    one away from [x].  NaN and the infinities have no integer and raise. *)
Theorem py_int_truncates (x : float) :
  (is_finite x = true ->
     py_int x = Ok (Qtrunc (to_Q x))
     /\ ((0 <= to_Q x)%Q ->
           (0 <= inject_Z (Qtrunc (to_Q x)) <= to_Q x)%Q
           /\ (to_Q x < inject_Z (Qtrunc (to_Q x)) + 1)%Q)
     /\ ((to_Q x < 0)%Q ->
           (to_Q x <= inject_Z (Qtrunc (to_Q x)) <= 0)%Q
           /\ (inject_Z (Qtrunc (to_Q x)) - 1 < to_Q x)%Q))
  /\ (F64.is_nan x = true -> py_int x = Raise ValueError)
  /\ (F64.is_inf x = true -> py_int x = Raise OverflowError).
Proof.
  split; [| split].
  - intros Hfin. split; [| apply Qtrunc_spec].
    destruct x as [s | s | | s m e]; try discriminate.
    + reflexivity.
    + cbn [py_int]. f_equal. apply py_int_finite.
  - destruct x; try discriminate. reflexivity.
  - destruct x; try discriminate. reflexivity.
Qed.

Lemma py_int_truncates_witness :
  py_int (F64.of_dyadic 11 (-2)) = Ok 2
  /\ py_int (F64.of_dyadic (-11) (-2)) = Ok (-2).
Proof.
  split.
  - destruct (py_int_truncates (F64.of_dyadic 11 (-2))) as [H _].
    destruct H as [H _]; [reflexivity |]. rewrite H. reflexivity.
  - destruct (py_int_truncates (F64.of_dyadic (-11) (-2))) as [H _].
    destruct H as [H _]; [reflexivity |]. rewrite H. reflexivity.
Defined.

(** C10 does not hold as stated.
    At [x = 1.5]: rounding half to even gives 2, the code gives 1; at
    [x = 2.75]: rounding gives 3, the code gives 2. *)
Lemma py_int_does_not_round :
  py_int (F64.of_dyadic 3 (-1)) = Ok 1
  /\ spec_pixel_index (F64.of_dyadic 3 (-1)) = 2
  /\ py_int (F64.of_dyadic 11 (-2)) = Ok 2
  /\ spec_pixel_index (F64.of_dyadic 11 (-2)) = 3
  /\ py_int (F64.of_dyadic 3 (-1)) <> Ok (spec_pixel_index (F64.of_dyadic 3 (-1))).
Proof. vm_compute. repeat split; congruence. Qed.

(** ** cutouts2 and its unbound names *)

Lemma pyfits_unbound : load_global "pyfits" = Raise (NameError "pyfits").
Proof. reflexivity. Qed.

Lemma math_unbound : load_global "math" = Raise (NameError "math").
Proof. reflexivity. Qed.

(** C4 at [sigma = 1], [peak = 8], and at every other noise and peak.  Lines 208
    to 210 are written to produce the levels [3 * local_rms * 2^n] up to
    the floor of the logarithm, but line 209 needs the module [math],
    which is never imported: whatever the noise, the peak and the rest of
    the computation, the lines raise [NameError] and return no level. *)
Theorem contour_lines_raise_name_error
    (line_209_210 : float -> float -> result (list float)) (local_rms peak : float) :
  cutouts2_lines_208_210 line_209_210 (fl 1) (fl 8) = Raise (NameError "math")
  /\ cutouts2_lines_208_210 line_209_210 local_rms peak = Raise (NameError "math")
  /\ (forall levels, cutouts2_lines_208_210 line_209_210 local_rms peak <> Ok levels).
Proof. repeat split. discriminate. Qed.

Lemma cutouts2_line_204_raises (lib : nat -> string -> list value -> result value)
    (radio_image : value) :
  cutouts2_line_204 lib radio_image = Raise (NameError "pyfits").
Proof. reflexivity. Qed.

(** C3, as the code has it.  Whatever the arguments, whatever the library
    calls do and whatever lines 205 to 241 would do, [cutouts2] never
    returns: when lines 164 to 194 complete, line 204 raises [NameError]
    for [pyfits], which the module never binds ([math], needed at line
    209, is not bound either); when one of lines 164 to 194 raises, that
    exception is the outcome. *)
Theorem cutouts2_never_returns
    (lib : nat -> string -> list value -> result value)
    (lines_205_241 : cutouts2_locals -> value -> value -> value -> result value)
    (infrared_mosaic radio_image radio_rms targetRA targetDEC isize rsize vmax verbose : value) :
  let run := cutouts2 lib lines_205_241 infrared_mosaic radio_image radio_rms
               targetRA targetDEC isize rsize vmax verbose in
  run = match cutouts2_lines_164_194 lib infrared_mosaic radio_image
                targetRA targetDEC isize rsize with
        | Ok _ => Raise (NameError "pyfits")
        | Raise e => Raise e
        end
  /\ (forall bundle, run <> Ok bundle)
  /\ ("pyfits" ∉ module_globals ++ builtins)
  /\ ("math" ∉ module_globals ++ builtins).
Proof.
  intros run.
  assert (run = match cutouts2_lines_164_194 lib infrared_mosaic radio_image
                        targetRA targetDEC isize rsize with
                | Ok _ => Raise (NameError "pyfits")
                | Raise e => Raise e
                end) as Hrun.
  { unfold run, cutouts2.
    destruct (cutouts2_lines_164_194 _ _ _ _ _ _ _); reflexivity. }
  split; [exact Hrun | split; [| split]].
  - intros bundle. rewrite Hrun.
    destruct (cutouts2_lines_164_194 _ _ _ _ _ _ _); discriminate.
  - apply (bool_decide_eq_false_1 _). reflexivity.
  - apply (bool_decide_eq_false_1 _). reflexivity.
Qed.

(** When the library calls all return and the pixel pair is finite, the
    outcome is the [NameError] for [pyfits]. *)
Lemma cutouts2_reaches_line_204 :
  cutouts2 (lib_returning (VSeq [VFloat (F64.of_dyadic 3 (-1)); VFloat (fl 7)]))
           (fun _ _ _ _ => Ok VNone)
           (VStr "optical.fits") (VStr "radio.fits") (VStr "rms.fits")
           (VFloat (fl 8)) (VFloat (fl (-43))) (VInt 200) (VInt 180) (VFloat (fl 1)) VNone
  = Raise (NameError "pyfits").
Proof. vm_compute. reflexivity. Qed.

(** C3 does not hold as stated.
    The outcome is not a [NameError] for every input: when the sky to
    pixel conversion of line 174 gives NaN, [int(x)] at line 175 raises
    [ValueError]; when the optical file cannot be opened, line 173 raises
    the library's error.  Line 204 is not reached in either case. *)
Lemma cutouts2_raises_before_line_204 :
  cutouts2 (lib_returning (VSeq [VFloat F64.nan; VFloat (fl 7)]))
           (fun _ _ _ _ => Ok VNone)
           (VStr "optical.fits") (VStr "radio.fits") (VStr "rms.fits")
           (VFloat F64.nan) (VFloat (fl (-43))) (VInt 200) (VInt 180) (VFloat (fl 1)) VNone
  = Raise ValueError
  /\ cutouts2 lib_missing_file
           (fun _ _ _ _ => Ok VNone)
           (VStr "missing.fits") (VStr "radio.fits") (VStr "rms.fits")
           (VFloat (fl 8)) (VFloat (fl (-43))) (VInt 200) (VInt 180) (VFloat (fl 1)) VNone
     = Raise (LibraryError "FileNotFoundError").
Proof. vm_compute. split; reflexivity. Qed.

(** ** Where the padding of [arr_slice] is right

    The cells land where the specification wants them when the padding
    runs and the window does not start before row 0 or column 0. *)

Lemma adjust_index_range (i : Z) (len : nat) :
  0 <= adjust_index i (Z.of_nat len) <= Z.of_nat len.
Proof. unfold adjust_index. destruct (Z.ltb_spec i 0); lia. Qed.

Lemma length_slice_list {A : Type} (s : slice) (l : list A) :
  length (slice_list s l) = slice_len s (length l).
Proof.
  unfold slice_list, slice_len, slice_lo.
  pose proof (adjust_index_range (start s) (length l)).
  pose proof (adjust_index_range (stop s) (length l)).
  rewrite length_take, length_drop. lia.
Qed.

Lemma slice_list_lookup {A : Type} (a w : Z) (l : list A) (i : nat) :
  0 <= a -> 0 <= w ->
  slice_list (Slice a (a + w)) l !! i
  = if Z.of_nat i <? w then l !! (Z.to_nat a + i)%nat else None.
Proof.
  intros Ha Hw. unfold slice_list, slice_len, slice_lo, adjust_index. cbn [start stop].
  replace (a <? 0) with false by (symmetry; apply Z.ltb_ge; lia).
  replace (a + w <? 0) with false by (symmetry; apply Z.ltb_ge; lia).
  set (len := Z.to_nat (Z.min (a + w) (Z.of_nat (length l)) - Z.min a (Z.of_nat (length l)))).
  destruct (Z.ltb_spec (Z.of_nat i) w) as [Hi | Hi].
  - destruct (decide (i < len)%nat) as [Hlt | Hge].
    + rewrite lookup_take_lt, lookup_drop by exact Hlt. f_equal. lia.
    + rewrite lookup_take_ge by lia. symmetry. apply lookup_ge_None_2. lia.
  - apply lookup_take_ge. lia.
Qed.

Lemma getitem_wf (image : ndarray) (slicer : slice * slice) :
  wf_ndarray image -> wf_ndarray (getitem image slicer).
Proof.
  intros [Hrows Hcols]. split; cbn [getitem cells nrows ncols].
  - now rewrite length_map, length_slice_list, Hrows.
  - apply Forall_forall. intros row Hrow.
    apply list_elem_of_fmap in Hrow as [row' [-> Hrow']].
    rewrite length_slice_list. f_equal.
    assert (row' ∈ cells image) as Hin.
    { unfold slice_list in Hrow'. eapply subseteq_drop, subseteq_take. exact Hrow'. }
    exact (proj1 (Forall_forall _ _) Hcols row' Hin).
Qed.

Lemma getitem_cell (image : ndarray) (r c w : Z) (i j : nat) :
  0 <= r -> 0 <= c -> 0 <= w ->
  cell (getitem image (Slice r (r + w), Slice c (c + w))) i j
  = if (Z.of_nat i <? w) && (Z.of_nat j <? w)
    then cell image (Z.to_nat r + i) (Z.to_nat c + j) else None.
Proof.
  intros Hr Hc Hw. unfold cell. cbn [getitem cells fst snd].
  rewrite list_lookup_fmap, (slice_list_lookup r w) by assumption.
  destruct (Z.of_nat i <? w); [| reflexivity]. cbn [andb].
  destruct (cells image !! (Z.to_nat r + i)%nat) as [row |]; cbn.
  - now apply slice_list_lookup.
  - now destruct (Z.of_nat j <? w).
Qed.

Lemma overwrite_rows_lookup (width : nat) (src dst : list (list float)) (i : nat) :
  overwrite_rows width src dst !! i
  = match dst !! i with
    | Some d => Some (match src !! i with
                      | Some s => take width s ++ drop width d
                      | None => d
                      end)
    | None => None
    end.
Proof.
  revert dst i. induction src as [| s src IH]; intros dst i.
  - cbn. now destruct (dst !! i).
  - destruct dst as [| d dst]; [reflexivity |].
    destruct i as [| i]; [reflexivity |]. cbn. apply IH.
Qed.

(** After [temp[:h, :w] = sliced] on a zero array that is large enough,
    a cell shows the slice where the slice has one and zero elsewhere. *)
Lemma assign_corner_cell (n : nat) (sliced cut : ndarray) (i j : nat) :
  wf_ndarray sliced ->
  (nrows sliced <= n)%nat -> (ncols sliced <= n)%nat ->
  assign_corner {| nrows := n; ncols := n; cells := replicate n (replicate n F64.zero) |} sliced
    = Ok cut ->
  (i < n)%nat -> (j < n)%nat ->
  shape cut = (n, n) /\ cell cut i j = Some (default F64.zero (cell sliced i j)).
Proof.
  intros [Hrows Hcols] Hr Hc Hcut Hi Hj.
  unfold assign_corner in Hcut. cbn [nrows ncols cells] in Hcut.
  rewrite !slice_len_prefix in Hcut by assumption.
  unfold broadcastable in Hcut. rewrite !Nat.eqb_refl in Hcut. cbn in Hcut.
  injection Hcut as <-. split; [reflexivity |].
  unfold cell. cbn [cells].
  rewrite overwrite_rows_lookup, lookup_replicate_2 by exact Hi.
  rewrite take_ge by lia.
  destruct (cells sliced !! i) as [row |] eqn:Hrow; cbn.
  - assert (length row = ncols sliced) as Hlen.
    { apply (proj1 (Forall_forall _ _) Hcols). eapply list_elem_of_lookup_2. exact Hrow. }
    rewrite take_ge by lia.
    destruct (row !! j) as [v |] eqn:Hv.
    + now apply lookup_app_l_Some.
    + apply lookup_ge_None_1 in Hv.
      rewrite lookup_app_r, lookup_drop by lia.
      cbn. apply lookup_replicate_2. lia.
  - apply lookup_replicate_2. exact Hj.
Qed.

(** X19.  The square test apart, [arr_slice] returns what the
    specification describes for a window that starts inside the parent
    raster: when the slice is not square, the result has shape
    [(size, size)] and every cell shows the parent's cell at that window
    position, or zero. *)
Lemma cutout_padded_right_when_no_low_overhang
    (image : ndarray) (pix : Z * Z) (size : Z) (cut : ndarray) (i j : nat) :
  wf_ndarray image ->
  0 <= size ->
  0 <= window_lo (snd pix) size -> 0 <= window_lo (fst pix) size ->
  nrows (getitem image (cutouts_slicer pix size))
    <> ncols (getitem image (cutouts_slicer pix size)) ->
  cutouts_cut image pix size = Ok cut ->
  (i < Z.to_nat size)%nat -> (j < Z.to_nat size)%nat ->
  shape cut = (Z.to_nat size, Z.to_nat size)
  /\ cell cut i j = Some (spec_cutout_cell image pix size i j).
Proof.
  intros Hwf Hsize Hrlo Hclo Hsquare Hcut Hi Hj.
  destruct (half_size_double_le size Hsize) as [Hh0 Hh2].
  unfold cutouts_cut, arr_slice in Hcut.
  destruct (Nat.eqb_spec (nrows (getitem image (cutouts_slicer pix size)))
                         (ncols (getitem image (cutouts_slicer pix size)))) as [Heq | _];
    [contradiction |].
  cbn [negb] in Hcut. unfold np_zeros in Hcut.
  replace (size <? 0) with false in Hcut by (symmetry; apply Z.ltb_ge; lia).
  cbn [orb mbind result_bind] in Hcut.
  pose proof (slice_len_window (snd pix) (half_size size) (nrows image) Hh0) as Hrows.
  pose proof (slice_len_window (fst pix) (half_size size) (ncols image) Hh0) as Hcols.
  destruct (assign_corner_cell (Z.to_nat size) _ cut i j
              (getitem_wf image (cutouts_slicer pix size) Hwf)) as [Hshape Hcell];
    try assumption.
  { cbn [nrows getitem cutouts_slicer fst]. lia. }
  { cbn [ncols getitem cutouts_slicer snd]. lia. }
  split; [exact Hshape |]. rewrite Hcell. f_equal.
  unfold spec_cutout_cell, parent_cell, cutouts_slicer, window_lo, window_hi in *.
  cbn [fst snd] in *.
  replace (snd pix + half_size size) with ((snd pix - half_size size) + 2 * half_size size) by ring.
  replace (fst pix + half_size size) with ((fst pix - half_size size) + 2 * half_size size) by ring.
  rewrite getitem_cell by lia.
  replace (0 <=? snd pix - half_size size + Z.of_nat i) with true
    by (symmetry; apply Z.leb_le; lia).
  replace (0 <=? fst pix - half_size size + Z.of_nat j) with true
    by (symmetry; apply Z.leb_le; lia).
  rewrite !andb_true_r.
  replace (snd pix - half_size size + Z.of_nat i <? snd pix - half_size size + 2 * half_size size)
    with (Z.of_nat i <? 2 * half_size size)
    by (destruct (Z.ltb_spec (Z.of_nat i) (2 * half_size size));
        symmetry; [apply Z.ltb_lt | apply Z.ltb_ge]; lia).
  replace (fst pix - half_size size + Z.of_nat j <? fst pix - half_size size + 2 * half_size size)
    with (Z.of_nat j <? 2 * half_size size)
    by (destruct (Z.ltb_spec (Z.of_nat j) (2 * half_size size));
        symmetry; [apply Z.ltb_lt | apply Z.ltb_ge]; lia).
  destruct ((Z.of_nat i <? 2 * half_size size) && (Z.of_nat j <? 2 * half_size size));
    [| reflexivity].
  do 2 f_equal; lia.
Qed.

(** A negative size makes the half-width negative; Python then reads the
    bounds of rows 3 to -1 as rows 3 to 8 of ten, the slice is 6 by 0, and
    [np.zeros((-4, -4))] raises [ValueError]. *)
Lemma cutout_negative_size_example :
  cutouts_cut (mk_array 10 (repeat (repeat 7 10) 10)) (5, 1) (-4) = Raise ValueError.
Proof. vm_compute. reflexivity. Qed.

(** * Further properties of the code *)

(** ** The sigma-clipping loop, continued *)

Lemma ltb_abs_finite (x thr : float) :
  F64.ltb (F64.abs x) thr = true -> is_finite x = true.
Proof.
  destruct x as [| | |]; [reflexivity | | | reflexivity];
    destruct thr as [| [] | |]; discriminate.
Qed.

Lemma clip_loop_Some (sigma_clip tolerance : float) (fuel : nat) :
  forall st st' : clip_state,
    clip_loop fuel sigma_clip tolerance st = Some st' ->
    exists n, (n <= fuel)%nat
      /\ st' = Nat.iter n (clip_step sigma_clip) st
      /\ clip_continue tolerance st' = false
      /\ forall k, (k < n)%nat ->
           clip_continue tolerance (Nat.iter k (clip_step sigma_clip) st) = true.
Proof.
  induction fuel as [| fuel IH]; intros st st' Hrun; cbn [clip_loop] in Hrun.
  - destruct (clip_continue tolerance st) eqn:Hc; [discriminate |].
    injection Hrun as <-. exists 0%nat. repeat split; [lia | exact Hc | intros k Hk; lia].
  - destruct (clip_continue tolerance st) eqn:Hc.
    + destruct (IH _ _ Hrun) as (n & Hn & Hst & Hstop & Hbefore).
      exists (S n). rewrite Nat.iter_succ_r. repeat split; [lia | exact Hst | exact Hstop |].
      intros [| k] Hk; [exact Hc |].
      rewrite Nat.iter_succ_r. apply Hbefore. lia.
    + injection Hrun as <-. exists 0%nat. repeat split; [lia | exact Hc | intros k Hk; lia].
Qed.

Lemma clip_iter_sublist (sigma_clip : float) (data : list float) (n : nat) :
  sublist (data_clip (clip_iter sigma_clip data n)) data.
Proof.
  induction n as [| n IH]; [reflexivity |].
  etransitivity; [| exact IH]. apply mask_select_sublist.
Qed.

(** X1.  Whenever [get_background_variance] returns, what it returns is
    the variance of the samples left after [n] iterations, for the first
    [n] at which the relative change is not greater than the tolerance;
    these samples are a sublist of the input, in the input's order. *)
Theorem background_variance_of_retained_samples
    (fuel : nat) (data : list float) (sigma_clip tolerance v : float) :
  get_background_variance fuel data sigma_clip tolerance = Some v ->
  exists n, (n <= fuel)%nat
    /\ v = np.nanvar (data_clip (clip_iter sigma_clip data n))
    /\ sublist (data_clip (clip_iter sigma_clip data n)) data
    /\ F64.gtb (diff (clip_iter sigma_clip data n)) tolerance = false
    /\ forall k, (k < n)%nat -> F64.gtb (diff (clip_iter sigma_clip data k)) tolerance = true.
Proof.
  unfold get_background_variance. intros Hrun.
  destruct (clip_loop fuel sigma_clip tolerance (clip_init data)) as [st |] eqn:Hloop;
    [| discriminate].
  injection Hrun as <-.
  destruct (clip_loop_Some _ _ _ _ _ Hloop) as (n & Hn & -> & Hstop & Hbefore).
  exists n. repeat split; [exact Hn | apply clip_iter_sublist | exact Hstop | exact Hbefore].
Qed.

Lemma background_variance_of_retained_samples_witness :
  exists n, (n <= 1)%nat
    /\ np.nanvar ramp3 = np.nanvar (data_clip (clip_iter default_sigma_clip ramp3 n))
    /\ sublist (data_clip (clip_iter default_sigma_clip ramp3 n)) ramp3
    /\ F64.gtb (diff (clip_iter default_sigma_clip ramp3 n)) default_tolerance = false
    /\ forall k, (k < n)%nat ->
         F64.gtb (diff (clip_iter default_sigma_clip ramp3 k)) default_tolerance = true.
Proof.
  apply (background_variance_of_retained_samples 1 ramp3
           default_sigma_clip default_tolerance (np.nanvar ramp3)).
  vm_compute. reflexivity.
Defined.

(** X2.  A sample that survives an iteration is finite (neither NaN nor
    an infinity), was in the subset before, and its absolute value is
    strictly below the threshold of that iteration. *)
Theorem retained_samples_are_finite (sigma_clip : float) (st : clip_state) (x : float) :
  x ∈ data_clip (clip_step sigma_clip st) ->
  is_finite x = true
  /\ x ∈ data_clip st
  /\ F64.ltb (F64.abs x)
       (F64.add (mean st) (F64.mul sigma_clip (np.nanstd (data_clip st)))) = true.
Proof.
  intros Hx. apply list_elem_of_In in Hx.
  cbn [clip_step data_clip] in Hx. unfold np.mask_select in Hx.
  apply filter_In in Hx as [Hin Hkeep]. unfold clip_keep in Hkeep.
  repeat split; [exact (ltb_abs_finite _ _ Hkeep) | now apply list_elem_of_In | exact Hkeep].
Qed.

Lemma retained_samples_are_finite_witness :
  is_finite (fl (-1)) = true
  /\ fl (-1) ∈ data_clip (clip_init flip_data)
  /\ F64.ltb (F64.abs (fl (-1)))
       (F64.add (mean (clip_init flip_data))
          (F64.mul default_sigma_clip (np.nanstd (data_clip (clip_init flip_data))))) = true.
Proof.
  apply (retained_samples_are_finite default_sigma_clip (clip_init flip_data) (fl (-1))).
  vm_compute. constructor.
Defined.

Lemma binary_round_aux_sign (s : bool) (m e : Z) (l : location) :
  let r := binary_round_aux F64.prec F64.emax s m e l in
  r = S754_nan \/ r = S754_zero s \/ r = S754_infinity s
  \/ exists m' e', r = S754_finite s m' e'.
Proof.
  unfold binary_round_aux.
  destruct (shr_fexp F64.prec F64.emax m e l) as [mrs' e'].
  destruct (shr_fexp F64.prec F64.emax _ e' loc_Exact) as [mrs'' e''].
  destruct (shr_m mrs'') as [| p | p]; cbn zeta; auto.
  destruct (e'' <=? F64.emax - F64.prec); eauto 6.
Qed.

(** A quotient of an absolute value by a negative number is not greater
    than a tolerance that is not negative. *)
Lemma div_abs_by_negative (num den tolerance : float) :
  F64.ltb den F64.zero = true ->
  F64.ltb tolerance F64.zero = false ->
  F64.gtb (F64.div (F64.abs num) den) tolerance = false.
Proof.
  intros Hden Htol.
  assert (exists r, F64.div (F64.abs num) den = r
            /\ (r = S754_nan \/ r = S754_zero true \/ r = S754_infinity true
                \/ exists m' e', r = S754_finite true m' e')) as (r & -> & Hr).
  { eexists. split; [reflexivity |].
    destruct den as [| [] | | [] md ed]; try discriminate;
      destruct num as [| | | sn mn en]; cbn; auto.
    all: try (right; right; right; eauto; fail).
    unfold F64.div, F64.abs, SFdiv, SFabs.
    destruct (SFdiv_core_binary F64.prec F64.emax (Z.pos mn) en (Z.pos md) ed) as [[mz ez] lz].
    apply (binary_round_aux_sign true mz ez lz). }
  unfold F64.gtb.
  destruct Hr as [-> | [-> | [-> | (m' & e' & ->)]]];
    destruct tolerance as [| [] | | [] mt et]; cbn in *; congruence.
Qed.

(** X3.  When [mean + newmean] is negative the relative change
    [abs(mean - newmean) / (mean + newmean)] is not positive, so for a
    tolerance that is not negative the loop is left after that iteration,
    however much the mean has changed: on samples with a negative mean
    the clipping is not iterated to convergence. *)
Theorem negative_mean_stops_the_loop (sigma_clip tolerance : float) (st : clip_state) :
  F64.ltb tolerance F64.zero = false ->
  F64.ltb (F64.add (mean st) (mean (clip_step sigma_clip st))) F64.zero = true ->
  clip_continue tolerance (clip_step sigma_clip st) = false.
Proof.
  intros Htol Hneg. unfold clip_continue.
  change (diff (clip_step sigma_clip st))
    with (F64.div (F64.abs (F64.sub (mean st) (mean (clip_step sigma_clip st))))
            (F64.add (mean st) (mean (clip_step sigma_clip st)))).
  now apply div_abs_by_negative.
Qed.

(** On the samples -1, -2, -3 the first iteration removes -3 and moves
    the mean from -2 to -1.5, a relative change of a quarter in size; the
    loop stops all the same. *)
Lemma negative_mean_stops_the_loop_witness :
  clip_continue default_tolerance (clip_step default_sigma_clip (clip_init neg_ramp3)) = false
  /\ data_clip (clip_step default_sigma_clip (clip_init neg_ramp3)) = [fl (-1); fl (-2)].
Proof.
  split.
  - apply (negative_mean_stops_the_loop default_sigma_clip default_tolerance (clip_init neg_ramp3));
      vm_compute; reflexivity.
  - vm_compute. reflexivity.
Defined.

Lemma sum_replace_nan_all_nan (data : list float) :
  Forall (fun x => F64.is_nan x = true) data ->
  np.sum (np.replace_nan data) = F64.zero /\ np.count_valid data = 0%nat.
Proof.
  unfold np.sum, np.replace_nan, np.count_valid.
  induction 1 as [| x data Hx _ [IHsum IHcount]]; [now split |].
  cbn. rewrite Hx. cbn. now split.
Qed.

Lemma nanmean_all_nan (data : list float) :
  Forall (fun x => F64.is_nan x = true) data -> np.nanmean data = F64.nan.
Proof.
  intros Hnan. unfold np.nanmean.
  destruct (sum_replace_nan_all_nan data Hnan) as [-> ->]. reflexivity.
Qed.

Lemma nanvar_all_nan (data : list float) :
  Forall (fun x => F64.is_nan x = true) data -> np.nanvar data = F64.nan.
Proof.
  intros Hnan. unfold np.nanvar.
  destruct (sum_replace_nan_all_nan data Hnan) as [_ ->]. reflexivity.
Qed.

Lemma mask_select_nan_threshold (sigma_clip : float) (subset data : list float) :
  np.mask_select (clip_keep sigma_clip F64.nan subset) data = [].
Proof.
  unfold np.mask_select, clip_keep.
  induction data as [| x data IH]; [reflexivity |].
  cbn [List.filter]. replace (F64.ltb _ _) with false; [exact IH |].
  unfold F64.add. cbn [SFadd]. now destruct (F64.abs x).
Qed.

(** X4.  On a sample sequence that holds nothing but NaN (the empty
    sequence included) the function raises nothing and returns NaN, for
    every clip threshold and tolerance. *)
Theorem all_nan_input_returns_nan
    (data : list float) (sigma_clip tolerance : float) (fuel : nat) :
  Forall (fun x => F64.is_nan x = true) data ->
  get_background_variance (S fuel) data sigma_clip tolerance = Some F64.nan.
Proof.
  intros Hnan. unfold get_background_variance. cbn [clip_loop].
  destruct (clip_continue tolerance (clip_init data)).
  - assert (clip_step sigma_clip (clip_init data)
            = {| diff := F64.nan; mean := F64.nan; data_clip := [] |}) as ->.
    { unfold clip_step, clip_init. cbn [mean data_clip].
      rewrite (nanmean_all_nan data Hnan), mask_select_nan_threshold. reflexivity. }
    destruct fuel; cbn [clip_loop]; unfold clip_continue; cbn [diff];
      rewrite gtb_nan_false; reflexivity.
  - cbn [clip_init data_clip]. now rewrite (nanvar_all_nan data Hnan).
Qed.

Lemma all_nan_input_returns_nan_witness :
  get_background_variance 1 nan3 default_sigma_clip default_tolerance = Some F64.nan.
Proof.
  apply (all_nan_input_returns_nan nan3 default_sigma_clip default_tolerance 0).
  repeat constructor.
Defined.

(** ** [arr_slice], continued *)

Lemma overwrite_rows_length (width : nat) (src dst : list (list float)) :
  length (overwrite_rows width src dst) = length dst.
Proof.
  revert dst. induction src as [| s src IH]; intros [| d dst]; cbn; auto.
Qed.

Lemma overwrite_rows_widths (width n : nat) (src dst : list (list float)) :
  (width <= n)%nat ->
  Forall (fun r => width <= length r)%nat src ->
  Forall (fun r => length r = n) dst ->
  Forall (fun r => length r = n) (overwrite_rows width src dst).
Proof.
  intros Hw Hsrc. revert dst.
  induction Hsrc as [| s src Hs _ IH]; intros dst Hdst; [destruct dst; exact Hdst |].
  destruct Hdst as [| d dst Hd Hdst]; [constructor |].
  cbn. constructor; [| now apply IH].
  rewrite length_app, length_take, length_drop. lia.
Qed.

Lemma slice_len_prefix_min (s len : nat) :
  slice_len (Slice 0 (Z.of_nat s)) len = Nat.min s len.
Proof.
  unfold slice_len, adjust_index. cbn [start stop].
  destruct (Z.ltb_spec (Z.of_nat s) 0); change (0 <? 0) with false; lia.
Qed.

Lemma np_zeros_wf (r c : Z) (a : ndarray) : np_zeros r c = Ok a -> wf_ndarray a.
Proof.
  unfold np_zeros. destruct (_ || _); [discriminate |]. intros [= <-].
  split; cbn; [apply length_replicate |].
  apply Forall_replicate, length_replicate.
Qed.

(** X5.  [arr_slice] keeps arrays rectangular: on a parent whose rows all
    have the recorded number of columns, whatever it returns (the slice
    itself or the padded array) has as many rows as its shape says, all
    of the width its shape says, for every slicer and size. *)
Theorem arr_slice_well_formed (arr : ndarray) (slicer : slice * slice) (size : Z) (cut : ndarray) :
  wf_ndarray arr ->
  arr_slice arr slicer size = Ok cut ->
  wf_ndarray cut.
Proof.
  intros Hwf. unfold arr_slice.
  pose proof (getitem_wf arr slicer Hwf) as [Hrows Hcols].
  destruct (negb _); [| intros [= <-]; now split].
  destruct (np_zeros size size) as [temp | e] eqn:Hzeros; [| discriminate].
  cbn [mbind result_bind]. unfold assign_corner.
  destruct (_ && _); [| discriminate]. intros [= <-].
  destruct (np_zeros_wf _ _ _ Hzeros) as [Htr Htc].
  split; cbn [nrows ncols cells].
  - now rewrite overwrite_rows_length.
  - set (t1 := slice_len _ (ncols temp)).
    apply (overwrite_rows_widths t1 (ncols temp)); [| | exact Htc].
    + unfold t1. rewrite slice_len_prefix_min. lia.
    + apply Forall_take, Forall_forall. intros row Hrow.
      rewrite (proj1 (Forall_forall _ _) Hcols row Hrow).
      unfold t1. rewrite slice_len_prefix_min. cbn [ncols getitem]. lia.
Qed.

Lemma arr_slice_well_formed_witness :
  arr_slice img4 (Slice 1 4, Slice 0 2) 3
    = Ok (mk_array 3 [[21; 22; 0]; [31; 32; 0]; [41; 42; 0]])
  /\ wf_ndarray (mk_array 3 [[21; 22; 0]; [31; 32; 0]; [41; 42; 0]]).
Proof.
  split; [vm_compute; reflexivity |].
  apply (arr_slice_well_formed img4 (Slice 1 4, Slice 0 2) 3);
    [split; [reflexivity | repeat constructor] | vm_compute; reflexivity].
Defined.

Lemma half_size_even (size : Z) :
  0 <= size -> Z.even size = true -> 2 * half_size size = size.
Proof.
  intros Hsize Heven. unfold half_size.
  rewrite Z.quot_div_nonneg by lia.
  apply Z.even_spec in Heven as [k ->].
  rewrite (Z.mul_comm 2 k), Z.div_mul by lia. ring.
Qed.

Lemma slice_len_inside (lo w : Z) (len : nat) :
  0 <= lo -> 0 <= w -> lo + w <= Z.of_nat len ->
  slice_len (Slice lo (lo + w)) len = Z.to_nat w.
Proof.
  intros Hlo Hw Hhi. unfold slice_len, adjust_index. cbn [start stop].
  destruct (Z.ltb_spec lo 0), (Z.ltb_spec (lo + w) 0); lia.
Qed.

Lemma cutout_interior_cells (image : ndarray) (pix : Z * Z) (size : Z) :
  0 <= size -> Z.even size = true ->
  0 <= window_lo (snd pix) size -> window_hi (snd pix) size <= Z.of_nat (nrows image) ->
  0 <= window_lo (fst pix) size -> window_hi (fst pix) size <= Z.of_nat (ncols image) ->
  exists cut,
    cutouts_cut image pix size = Ok cut
    /\ shape cut = (Z.to_nat size, Z.to_nat size)
    /\ forall i j, (i < Z.to_nat size)%nat -> (j < Z.to_nat size)%nat ->
         cell cut i j
         = cell image (Z.to_nat (window_lo (snd pix) size) + i)
                      (Z.to_nat (window_lo (fst pix) size) + j).
Proof.
  intros Hsize Heven Hrlo Hrhi Hclo Hchi.
  pose proof (half_size_even size Hsize Heven) as Hhalf.
  unfold window_lo, window_hi in *.
  unfold cutouts_cut, arr_slice, cutouts_slicer.
  replace (snd pix + half_size size) with ((snd pix - half_size size) + size) by lia.
  replace (fst pix + half_size size) with ((fst pix - half_size size) + size) by lia.
  cbn [getitem nrows ncols fst snd].
  rewrite !slice_len_inside by lia.
  rewrite Nat.eqb_refl. cbn [negb].
  eexists. split; [reflexivity | split].
  - unfold shape. cbn [nrows ncols getitem fst snd].
    now rewrite !slice_len_inside by lia.
  - intros i j Hi Hj. rewrite getitem_cell by lia.
    replace (Z.of_nat i <? size) with true by (symmetry; apply Z.ltb_lt; lia).
    replace (Z.of_nat j <? size) with true by (symmetry; apply Z.ltb_lt; lia).
    reflexivity.
Qed.

(** X7.  The intended case: for an even size and a window that lies
    inside the parent raster, the cutout is returned without padding, has
    shape [(size, size)], and its cell [(i, j)] is the parent's cell at
    row [pix[1] - size/2 + i] and column [pix[0] - size/2 + j]. *)
Theorem cutout_interior_exact (image : ndarray) (pix : Z * Z) (size : Z) :
  0 <= size -> Z.even size = true ->
  0 <= window_lo (snd pix) size -> window_hi (snd pix) size <= Z.of_nat (nrows image) ->
  0 <= window_lo (fst pix) size -> window_hi (fst pix) size <= Z.of_nat (ncols image) ->
  exists cut,
    cutouts_cut image pix size = Ok cut
    /\ shape cut = (Z.to_nat size, Z.to_nat size)
    /\ forall i j, (i < Z.to_nat size)%nat -> (j < Z.to_nat size)%nat ->
         cell cut i j
         = cell image (Z.to_nat (window_lo (snd pix) size) + i)
                      (Z.to_nat (window_lo (fst pix) size) + j).
Proof. exact (cutout_interior_cells image pix size). Qed.

Lemma cutout_interior_exact_witness :
  exists cut,
    cutouts_cut img4 (2, 2) 2 = Ok cut
    /\ shape cut = (2%nat, 2%nat)
    /\ forall i j, (i < 2)%nat -> (j < 2)%nat ->
         cell cut i j = cell img4 (1 + i) (1 + j).
Proof. apply (cutout_interior_exact img4 (2, 2) 2); vm_compute; congruence. Defined.

Lemma slice_len_low_overhang (lo w : Z) (len : nat) :
  lo < 0 -> 0 <= lo + w -> w <= Z.of_nat len ->
  slice_len (Slice lo (lo + w)) len = 0%nat.
Proof.
  intros Hlo Hhi Hw. unfold slice_len, adjust_index. cbn [start stop].
  destruct (Z.ltb_spec lo 0), (Z.ltb_spec (lo + w) 0); lia.
Qed.

Lemma overwrite_rows_nothing (src dst : list (list float)) :
  overwrite_rows 0 src dst = dst.
Proof.
  revert dst. induction src as [| s src IH]; intros [| d dst]; cbn; try reflexivity.
  now rewrite IH, take_0, drop_0.
Qed.

(** X8.  A window that starts before row 0 (or column 0) but reaches into
    a parent raster at least as large as the window loses its overlap:
    the negative bound is counted from the end, the slice comes out
    empty on that axis, and every cell of the cutout returned is zero. *)
Theorem cutout_low_overhang_is_blank (image : ndarray) (pix : Z * Z) (size : Z) (cut : ndarray) :
  wf_ndarray image ->
  0 <= size ->
  (window_lo (snd pix) size < 0 <= window_hi (snd pix) size
   /\ 2 * half_size size <= Z.of_nat (nrows image))
  \/ (window_lo (fst pix) size < 0 <= window_hi (fst pix) size
      /\ 2 * half_size size <= Z.of_nat (ncols image)) ->
  cutouts_cut image pix size = Ok cut ->
  forall i j v, cell cut i j = Some v -> v = F64.zero.
Proof.
  intros [Hwfr Hwfc] Hsize Hlow Hcut i j v Hv.
  unfold window_lo, window_hi in Hlow.
  unfold cutouts_cut, arr_slice, cutouts_slicer in Hcut.
  replace (snd pix + half_size size)
    with ((snd pix - half_size size) + 2 * half_size size) in * by ring.
  replace (fst pix + half_size size)
    with ((fst pix - half_size size) + 2 * half_size size) in * by ring.
  set (rs := Slice (snd pix - half_size size) _) in Hcut.
  set (cs := Slice (fst pix - half_size size) _) in Hcut.
  assert (forall r, cells (getitem image (rs, cs)) !! i = Some r -> r = []) as Hempty.
  { intros r Hr. cbn [getitem cells fst snd] in Hr.
    rewrite list_lookup_fmap in Hr.
    destruct (slice_list rs (cells image) !! i) as [row |] eqn:Hrow; [| discriminate].
    injection Hr as <-.
    destruct Hlow as [[Hr1 Hr2] | [Hc1 Hc2]].
    - exfalso. unfold slice_list at 1 in Hrow.
      assert (length (slice_list rs (cells image)) = 0%nat) as Hlen.
      { rewrite length_slice_list, Hwfr. unfold rs, slice_len, adjust_index. cbn [start stop].
        destruct (Z.ltb_spec (snd pix - half_size size) 0),
                 (Z.ltb_spec (snd pix - half_size size + 2 * half_size size) 0); lia. }
      apply lookup_lt_Some in Hrow. unfold slice_list in Hlen. lia.
    - apply length_zero_iff_nil. rewrite length_slice_list.
      assert (length row = ncols image) as ->.
      { apply (proj1 (Forall_forall _ _) Hwfc).
        apply list_elem_of_lookup_2 in Hrow. unfold slice_list in Hrow.
        eapply subseteq_drop, subseteq_take. exact Hrow. }
      unfold cs, slice_len, adjust_index. cbn [start stop].
      destruct (Z.ltb_spec (fst pix - half_size size) 0),
               (Z.ltb_spec (fst pix - half_size size + 2 * half_size size) 0); lia. }
  destruct (negb _) in Hcut.
  - unfold np_zeros in Hcut.
    replace (size <? 0) with false in Hcut by (symmetry; apply Z.ltb_ge; lia).
    cbn [orb mbind result_bind] in Hcut. unfold assign_corner in Hcut.
    destruct (_ && _) in Hcut; [| discriminate]. injection Hcut as <-.
    unfold cell in Hv. cbn [cells nrows ncols] in Hv.
    rewrite overwrite_rows_lookup in Hv.
    destruct (replicate (Z.to_nat size) (replicate (Z.to_nat size) F64.zero) !! i)
      as [d |] eqn:Hd; [| discriminate].
    apply lookup_replicate_1 in Hd as [-> _].
    destruct (take _ _ !! i) as [s |] eqn:Hs.
    + assert (s = []) as ->.
      { apply Hempty. apply lookup_take_Some in Hs. exact (proj1 Hs). }
      rewrite take_nil in Hv. cbn [app] in Hv.
      apply list_elem_of_lookup_2 in Hv.
      apply subseteq_drop in Hv. now apply elem_of_replicate in Hv as [-> _].
    + now apply lookup_replicate_1 in Hv as [-> _].
  - injection Hcut as <-. unfold cell in Hv.
    destruct (cells (getitem image (rs, cs)) !! i) as [r |] eqn:Hr; [| discriminate].
    rewrite (Hempty r eq_refl) in Hv. discriminate Hv.
Qed.

Lemma cutout_low_overhang_is_blank_witness :
  cutouts_cut img4 (2, 1) 4 = Ok zeros4
  /\ forall i j v, cell zeros4 i j = Some v -> v = F64.zero.
Proof.
  split; [vm_compute; reflexivity |].
  apply (cutout_low_overhang_is_blank img4 (2, 1) 4 zeros4);
    [split; [reflexivity | repeat constructor] | lia | | vm_compute; reflexivity].
  left. vm_compute. repeat split; congruence.
Defined.

Lemma slice_list_lookup_any {A : Type} (s : slice) (l : list A) (i : nat) :
  slice_list s l !! i
  = if (i <? slice_len s (length l))%nat then l !! (slice_lo s (length l) + i)%nat else None.
Proof.
  unfold slice_list.
  destruct (Nat.ltb_spec i (slice_len s (length l))) as [Hlt | Hge].
  - now rewrite lookup_take_lt, lookup_drop.
  - now apply lookup_take_ge.
Qed.

Lemma getitem_cell_any (image : ndarray) (rs cs : slice) (i j : nat) :
  wf_ndarray image ->
  cell (getitem image (rs, cs)) i j
  = if (i <? slice_len rs (nrows image))%nat && (j <? slice_len cs (ncols image))%nat
    then cell image (slice_lo rs (nrows image) + i) (slice_lo cs (ncols image) + j)
    else None.
Proof.
  intros [Hrows Hcols]. unfold cell. cbn [getitem cells fst snd].
  rewrite list_lookup_fmap, slice_list_lookup_any, Hrows.
  destruct (i <? slice_len rs (nrows image))%nat; [| reflexivity]. cbn [andb].
  destruct (cells image !! (slice_lo rs (nrows image) + i)%nat) as [row |] eqn:Hrow;
    [| now destruct (j <? slice_len cs (ncols image))%nat].
  assert (length row = ncols image) as Hlen.
  { apply (proj1 (Forall_forall _ _) Hcols). eapply list_elem_of_lookup_2. exact Hrow. }
  cbn [fmap option_fmap option_map]. now rewrite slice_list_lookup_any, Hlen.
Qed.

(** X9.  A window that lies wholly before row 0 does not come out empty:
    both its row bounds are negative and are counted from the end, so
    (for an even size, columns inside the parent, and a parent with at
    least as many rows as the window reaches back) the cutout returned is
    a full [(size, size)] block of the parent's last rows, although the
    window and the parent have no cell in common. *)
Theorem cutout_before_first_row_wraps (image : ndarray) (pix : Z * Z) (size : Z) :
  wf_ndarray image ->
  0 < size -> Z.even size = true ->
  window_hi (snd pix) size < 0 ->
  - Z.of_nat (nrows image) <= window_lo (snd pix) size ->
  0 <= window_lo (fst pix) size -> window_hi (fst pix) size <= Z.of_nat (ncols image) ->
  window_meets image pix size = false
  /\ exists cut,
       cutouts_cut image pix size = Ok cut
       /\ shape cut = (Z.to_nat size, Z.to_nat size)
       /\ forall i j, (i < Z.to_nat size)%nat -> (j < Z.to_nat size)%nat ->
            cell cut i j
            = cell image
                (Z.to_nat (Z.of_nat (nrows image) + window_lo (snd pix) size) + i)
                (Z.to_nat (window_lo (fst pix) size) + j).
Proof.
  intros Hwf Hsize Heven Hrhi Hrlo Hclo Hchi.
  pose proof (half_size_even size ltac:(lia) Heven) as Hhalf.
  split.
  { unfold window_meets. apply andb_false_iff. left. apply Z.ltb_ge. lia. }
  unfold window_lo, window_hi in *.
  assert (slice_len (Slice (snd pix - half_size size) (snd pix + half_size size)) (nrows image)
          = Z.to_nat size) as Hrows.
  { unfold slice_len, adjust_index. cbn [start stop].
    destruct (Z.ltb_spec (snd pix - half_size size) 0),
             (Z.ltb_spec (snd pix + half_size size) 0); lia. }
  assert (slice_len (Slice (fst pix - half_size size) (fst pix + half_size size)) (ncols image)
          = Z.to_nat size) as Hcols.
  { unfold slice_len, adjust_index. cbn [start stop].
    destruct (Z.ltb_spec (fst pix - half_size size) 0),
             (Z.ltb_spec (fst pix + half_size size) 0); lia. }
  unfold cutouts_cut, arr_slice, cutouts_slicer.
  cbn [getitem nrows ncols fst snd]. rewrite Hrows, Hcols, Nat.eqb_refl. cbn [negb].
  eexists. split; [reflexivity | split].
  - unfold shape. cbn [nrows ncols getitem fst snd]. now rewrite Hrows, Hcols.
  - intros i j Hi Hj. rewrite (getitem_cell_any image _ _ i j Hwf), Hrows, Hcols.
    replace (i <? Z.to_nat size)%nat with true by (symmetry; apply Nat.ltb_lt; lia).
    replace (j <? Z.to_nat size)%nat with true by (symmetry; apply Nat.ltb_lt; lia).
    cbn [andb]. f_equal; f_equal; unfold slice_lo, adjust_index; cbn [start stop].
    + destruct (Z.ltb_spec (snd pix - half_size size) 0); lia.
    + destruct (Z.ltb_spec (fst pix - half_size size) 0); lia.
Qed.

Lemma cutout_before_first_row_wraps_witness :
  window_meets img4 (2, -2) 2 = false
  /\ exists cut,
       cutouts_cut img4 (2, -2) 2 = Ok cut
       /\ shape cut = (2%nat, 2%nat)
       /\ forall i j, (i < 2)%nat -> (j < 2)%nat -> cell cut i j = cell img4 (1 + i) (1 + j).
Proof.
  apply (cutout_before_first_row_wraps img4 (2, -2) 2);
    first [split; [reflexivity | repeat constructor] | vm_compute; congruence].
Defined.

Lemma cutout_padded_right_when_no_low_overhang_witness :
  cutouts_cut img4 (3, 2) 4
    = Ok (mk_array 4 [[12; 13; 14; 0]; [22; 23; 24; 0]; [32; 33; 34; 0]; [42; 43; 44; 0]])
  /\ cell (mk_array 4 [[12; 13; 14; 0]; [22; 23; 24; 0]; [32; 33; 34; 0]; [42; 43; 44; 0]]) 1 3
     = Some (spec_cutout_cell img4 (3, 2) 4 1 3).
Proof.
  split; [vm_compute; reflexivity |].
  apply (cutout_padded_right_when_no_low_overhang img4 (3, 2) 4 _ 1 3);
    first [split; [reflexivity | repeat constructor]
          | vm_compute; congruence
          | vm_compute; lia].
Defined.

(** ** The pixel centre and the cutout around it *)

Lemma py_int_is_trunc (x : float) :
  is_finite x = true -> py_int x = Ok (Qtrunc (to_Q x)).
Proof.
  destruct x as [s | s | | s m e]; try discriminate; intros _.
  - reflexivity.
  - cbn [py_int]. f_equal. apply py_int_finite.
Qed.

Lemma Qtrunc_zero_iff (v : Q) : Qtrunc v = 0 <-> (-1 < v)%Q /\ (v < 1)%Q.
Proof.
  destruct (Qtrunc_spec v) as [Hpos Hneg].
  destruct (Qlt_le_dec v 0) as [Hv | Hv].
  - destruct (Hneg Hv) as [[Hlo Hhi] Hnear]. split.
    + intros Hz. rewrite Hz in Hnear. split; [exact Hnear |].
      eapply Qlt_trans; [exact Hv | reflexivity].
    + intros [Hgt _].
      assert (inject_Z (-1) < inject_Z (Qtrunc v))%Q as H1
        by (eapply Qlt_le_trans; [exact Hgt | exact Hlo]).
      change 0%Q with (inject_Z 0) in Hhi.
      rewrite <- Zlt_Qlt in H1. rewrite <- Zle_Qle in Hhi. lia.
  - destruct (Hpos Hv) as [[Hlo Hhi] Hnear]. split.
    + intros Hz. rewrite Hz in Hnear. split; [| exact Hnear].
      eapply Qlt_le_trans; [| exact Hv]. reflexivity.
    + intros [_ Hlt].
      assert (inject_Z (Qtrunc v) < inject_Z 1)%Q as H1
        by (eapply Qle_lt_trans; [exact Hhi | exact Hlt]).
      change 0%Q with (inject_Z 0) in Hlo.
      rewrite <- Zlt_Qlt in H1. rewrite <- Zle_Qle in Hlo. lia.
Qed.

(** X10.  [int(x)] gives pixel 0 exactly for the conversion results
    strictly between -1 and 1: truncation folds the two unit intervals
    around zero into one pixel index, twice as wide as any other. *)
Theorem py_int_zero_band (x : float) :
  is_finite x = true ->
  (py_int x = Ok 0 <-> (-1 < to_Q x)%Q /\ (to_Q x < 1)%Q).
Proof.
  intros Hfin. rewrite (py_int_is_trunc x Hfin), <- Qtrunc_zero_iff.
  split; [now intros [= ->] | now intros ->].
Qed.

Lemma py_int_zero_band_witness :
  py_int (F64.of_dyadic (-3) (-2)) = Ok 0 /\ py_int (F64.of_dyadic 3 (-2)) = Ok 0.
Proof.
  split.
  - apply (py_int_zero_band (F64.of_dyadic (-3) (-2))); [reflexivity |].
    vm_compute. split; reflexivity.
  - apply (py_int_zero_band (F64.of_dyadic 3 (-2))); [reflexivity |].
    vm_compute. split; reflexivity.
Defined.

(** X11.  Truncation is symmetric about zero: [int(-x) = -int(x)] for
    every float, with the same exception on NaN and on the infinities. *)
Theorem py_int_opp (x : float) :
  py_int (F64.opp x) = Z.opp <$> py_int x.
Proof.
  destruct x as [s | s | | [] m e]; cbn; try reflexivity.
  f_equal. now rewrite Z.opp_involutive.
Qed.



(** ** rms *)

(** X15.  [rms] never returns: once the import and the flattening of
    lines 123 to 125 are done, line 126 looks up [old_div], which the
    module never binds, and raises [NameError] before the sum of squares
    is computed; when a line before raises, that exception is the
    outcome. *)
Theorem rms_never_returns
    (lib : nat -> string -> list value -> result value)
    (line_126_call : value -> value -> result value) (arr : value) :
  rms lib line_126_call arr
  = match rms_lines_123_125 lib arr with
    | Ok _ => Raise (NameError "old_div")
    | Raise e => Raise e
    end
  /\ (forall r, rms lib line_126_call arr <> Ok r)
  /\ ("old_div" ∉ module_globals ++ builtins).
Proof.
  assert (rms lib line_126_call arr
          = match rms_lines_123_125 lib arr with
            | Ok _ => Raise (NameError "old_div")
            | Raise e => Raise e
            end) as Hrun.
  { unfold rms. destruct (rms_lines_123_125 lib arr) as [[sqrt arr'] | e]; reflexivity. }
  split; [exact Hrun | split].
  - intros r. rewrite Hrun. destruct (rms_lines_123_125 lib arr); discriminate.
  - apply (bool_decide_eq_false_1 _). reflexivity.
Qed.

(** With a library whose calls return, a two-dimensional array is
    flattened and the outcome is the [NameError]. *)
Lemma rms_reaches_line_126 :
  rms (fun line name _ =>
         if String.eqb name "ndarray.shape" then Ok (VSeq [VInt 3; VInt 4]) else Ok (VObj line))
      (fun _ _ => Ok (VFloat (fl 1))) (VObj 0)
  = Raise (NameError "old_div").
Proof. vm_compute. reflexivity. Qed.

(** ** The sigma-clipping loop: progress and sign of the result *)

(** X16.  For a tolerance that is not negative, an iteration after which
    the loop goes on has removed at least one sample: the subset is
    strictly shorter than before. *)
Theorem continuing_iteration_removes_a_sample
    (sigma_clip tolerance : float) (data : list float) (n : nat) :
  F64.ltb tolerance F64.zero = false ->
  F64.gtb (diff (clip_iter sigma_clip data (S n))) tolerance = true ->
  (length (data_clip (clip_iter sigma_clip data (S n)))
   < length (data_clip (clip_iter sigma_clip data n)))%nat.
Proof.
  intros Htol Hgo.
  set (st := clip_iter sigma_clip data n) in *.
  change (clip_iter sigma_clip data (S n)) with (clip_step sigma_clip st) in *.
  assert (mean st = np.nanmean (data_clip st)) as Hmean by (unfold st; destruct n; reflexivity).
  destruct (mask_select_same_or_shorter
              (clip_keep sigma_clip (mean st) (data_clip st)) (data_clip st)) as [Hsame | Hlt];
    [| exact Hlt].
  pose proof (clip_step_unchanged_stops sigma_clip tolerance st Hmean Htol Hsame) as Hstop.
  unfold clip_continue in Hstop. congruence.
Qed.

Lemma continuing_iteration_removes_a_sample_witness :
  (length (data_clip (clip_iter default_sigma_clip flip_data 1))
   < length (data_clip (clip_iter default_sigma_clip flip_data 0)))%nat.
Proof.
  apply (continuing_iteration_removes_a_sample default_sigma_clip default_tolerance flip_data 0);
    vm_compute; reflexivity.
Defined.

Lemma binary_round_sign (s : bool) (m : positive) (e : Z) :
  nonneg_or_nan (binary_round F64.prec F64.emax false m e).
Proof.
  unfold binary_round.
  destruct (shl_align m e _) as [mz ez].
  destruct (binary_round_aux_sign false (Z.pos mz) ez loc_Exact)
    as [-> | [-> | [-> | (m' & e' & ->)]]]; cbn; auto.
Qed.

Lemma mul_self_nonneg (d : float) : nonneg_or_nan (F64.mul d d).
Proof.
  destruct d as [s | s | | s m e]; cbn; auto.
  - now destruct s.
  - now destruct s.
  - replace (xorb s s) with false by now destruct s.
    destruct (binary_round_aux_sign false (Z.pos (m * m)) (e + e) loc_Exact)
      as [-> | [-> | [-> | (m' & e' & ->)]]]; cbn; auto.
Qed.

Lemma add_nonneg (a b : float) :
  nonneg_or_nan a -> nonneg_or_nan b -> nonneg_or_nan (F64.add a b).
Proof.
  destruct a as [sa | sa | | sa ma ea], b as [sb | sb | | sb mb eb]; cbn;
    intros Ha Hb; subst; cbn; auto.
  unfold F64.add, SFadd. cbn [cond_Zopp].
  apply (binary_round_sign false).
Qed.

Lemma sum_nonneg (a : list float) :
  Forall nonneg_or_nan a -> nonneg_or_nan (np.sum a).
Proof.
  unfold np.sum. assert (nonneg_or_nan F64.zero) as Hacc by reflexivity.
  revert Hacc. generalize F64.zero as acc.
  induction a as [| x a IH]; intros acc Hacc Ha; [exact Hacc |].
  apply Forall_cons in Ha as [Hx Ha]. cbn [fold_left].
  apply IH; [now apply add_nonneg | exact Ha].
Qed.

Lemma of_nat_nonneg (n : nat) : nonneg_or_nan (F64.of_Z (Z.of_nat n)).
Proof.
  unfold F64.of_Z, binary_normalize.
  destruct (Z.of_nat n) eqn:Hn; [reflexivity | apply (binary_round_sign false) | lia].
Qed.

Lemma div_nonneg (a b : float) :
  nonneg_or_nan a -> nonneg_or_nan b -> nonneg_or_nan (F64.div a b).
Proof.
  destruct a as [sa | sa | | sa ma ea], b as [sb | sb | | sb mb eb]; cbn;
    intros Ha Hb; subst; cbn; auto.
  unfold F64.div, SFdiv.
  destruct (SFdiv_core_binary _ _ _ _ _ _) as [[mz ez] lz]. cbn [xorb].
  destruct (binary_round_aux_sign false mz ez lz)
    as [-> | [-> | [-> | (m' & e' & ->)]]]; cbn; auto.
Qed.

Lemma nanvar_nonneg (a : list float) : nonneg_or_nan (np.nanvar a).
Proof.
  unfold np.nanvar. destruct (np.count_valid a); [exact I |].
  apply div_nonneg; [| apply of_nat_nonneg].
  apply sum_nonneg, Forall_forall. intros v Hv.
  apply list_elem_of_In, in_map_iff in Hv as [d [<- _]]. apply mul_self_nonneg.
Qed.

(** X17.  What [get_background_variance] returns is never negative: it is
    NaN, plus zero, a positive number or plus infinity (never minus
    zero), for every input, clip threshold and tolerance. *)
Theorem background_variance_not_negative
    (fuel : nat) (data : list float) (sigma_clip tolerance v : float) :
  get_background_variance fuel data sigma_clip tolerance = Some v ->
  nonneg_or_nan v /\ F64.ltb v F64.zero = false.
Proof.
  unfold get_background_variance.
  destruct (clip_loop fuel sigma_clip tolerance (clip_init data)) as [st |]; [| discriminate].
  intros [= <-]. pose proof (nanvar_nonneg (data_clip st)) as Hnn.
  split; [exact Hnn |].
  destruct (np.nanvar (data_clip st)) as [s | s | | s m e]; cbn in Hnn; subst; reflexivity.
Qed.

Lemma background_variance_not_negative_witness :
  nonneg_or_nan (np.nanvar ramp3) /\ F64.ltb (np.nanvar ramp3) F64.zero = false.
Proof.
  apply (background_variance_not_negative 1 ramp3
           default_sigma_clip default_tolerance (np.nanvar ramp3)).
  vm_compute. reflexivity.
Defined.
